(** * meshFromKinect: depth encoding and frame tweening

    A shallow embedding of the two canvas-filling methods of
    [share/meshFromKinect-old.js]:

    - [updateCanvasData]  (lines 377-408): one raw depth frame to RGBA bytes;
    - [tweenCanvasData]   (lines 416-487): the cross-fade between two frames,
      driven by [requestAnimationFrame].

    JavaScript numbers are IEEE-754 binary64 values; they are modelled by the
    kernel's primitive floats, so every arithmetic step below rounds exactly
    as the script does.  The raw frames are [Uint8Array]s (lists of bytes),
    the canvas pixel store [imageData.data] is a [Uint8ClampedArray] (a list
    of integers in [0,255], written through [ToUint8Clamp]).

    The methods that build the mesh are embedded as well, as far as they
    compute: the index and the colour loop of [_geometry] (lines 142-266),
    the uniforms of [_material] (lines 268-345), and [_createMesh] (lines
    109-139) with the load handlers of [_loadFile] (lines 348-358), which
    polls by [setTimeout] until both shader texts are there.  The same
    [_geometry] and [_material] stand in [share/MeshFromDepth.js]. *)

From Stdlib Require Import ZArith QArith Qround Lia List Bool.
From Stdlib.Strings Require Import Byte.
From Stdlib Require Import PrimFloat FloatOps FloatAxioms SpecFloat Uint63.
From stdpp Require Import base list strings gmap.

#[local] Open Scope Z_scope.

(* ===================================================================== *)
(** ** JavaScript numbers *)
(* ===================================================================== *)

Module Num.

(** The Number holding the integer [z]; exact for [|z| < 2^53], which
    covers every integer the two methods form. *)
Definition of_Z (z : Z) : float :=
  if z <? 0 then PrimFloat.opp (PrimFloat.of_uint63 (Uint63.of_Z (- z)))
  else PrimFloat.of_uint63 (Uint63.of_Z z).

(** The exact rational value of a finite Number: [(-1)^s * m * 2^e]. *)
Definition exact (x : float) : option Q :=
  match Prim2SF x with
  | S754_zero _ => Some (0 # 1)
  | S754_finite s m e =>
      let n := if s then Z.neg m else Z.pos m in
      Some (if e <? 0 then Qmake n (Z.to_pos (Z.shiftl 1 (- e)))
            else Qmake (Z.shiftl n e) 1)
  | _ => None
  end.

(** [floor x] for [0 < x < 255]: the largest integer in [0,255] that is
    not above [x], found bit by bit from the top. *)
Definition floor_u8 (x : float) : Z :=
  fold_left
    (fun acc b => if (of_Z (acc + b) <=? x)%float then acc + b else acc)
    (128 :: 64 :: 32 :: 16 :: 8 :: 4 :: 2 :: 1 :: nil) 0.

(** [ToUint8Clamp], the conversion a [Uint8ClampedArray] applies to every
    Number stored into it (ECMAScript 7.1.12): NaN becomes 0, the value is
    clamped to [0,255], then rounded to the nearest integer, a tie going
    to the even one. *)
Definition toUint8Clamp (x : float) : Z :=
  if is_nan x then 0
  else if (x <=? 0)%float then 0
  else if (255 <=? x)%float then 255
  else
    let f := floor_u8 x in
    let h := (of_Z f + 0.5)%float in
    if (x <? h)%float then f
    else if (h <? x)%float then f + 1
    else if Z.even f then f else f + 1.

(** [x << n] and [x | y] on int32 operands. *)
Definition toInt32 (z : Z) : Z := (z + 2 ^ 31) mod 2 ^ 32 - 2 ^ 31.
Definition shl (x : Z) (n : Z) : Z := toInt32 (Z.shiftl (toInt32 x) (n mod 32)).
Definition bor (x y : Z) : Z := Z.lor (toInt32 x) (toInt32 y).

End Num.

(** A [Uint8Array] element, read as a Number. *)
Definition byteZ (b : byte) : Z := Z.of_N (Byte.to_N b).

(** [a[i]] inside a bitwise expression: an index past the end reads
    [undefined], which [ToInt32] turns into 0. *)
Definition elt32 (a : list byte) (i : nat) : Z :=
  match a !! i with
  | Some b => byteZ b
  | None => 0
  end.

(* ===================================================================== *)
(** ** BB.MathUtils.map *)
(* ===================================================================== *)

Module MathUtils.

(** Modelled from the spec: [BB.MathUtils.map] belongs to the BB library,
    which is loaded next to this script and is not part of it.  The spec
    gives it as the unclamped linear remap
    [outMin + (value - inMin) * (outMax - outMin) / (inMax - inMin)]. *)
Definition map (value inMin inMax outMin outMax : float) : float :=
  (outMin + (value - inMin) * (outMax - outMin) / (inMax - inMin))%float.

End MathUtils.

(** The same remap over the rationals. *)
Definition mapQ (value inMin inMax outMin outMax : Q) : Q :=
  (outMin + (value - inMin) * (outMax - outMin) / (inMax - inMin))%Q.

(* ===================================================================== *)
(** ** The object *)
(* ===================================================================== *)

(** What the two frame fields can hold: [null] (the constructor's default),
    [undefined] (an omitted argument stored by [tweenCanvasData]) or a
    [Uint8Array]. *)
Inductive jsval : Type :=
  | JNull
  | JUndefined
  | JArray (a : list byte).

(** The fields of a [meshFromKinect] the two methods read or write.
    [animationFrames] counts the callbacks handed to
    [requestAnimationFrame] that have not run yet; each of them is the
    closure [function(){ self.tweenCanvasData(); }]. *)
Record meshFromKinect : Type := MeshFromKinect {
  imageData : list Z;
  needsUpdate : bool;
  prevCanvasData : jsval;
  newCanvasData : jsval;
  fadeCnt : Z;
  animationFrames : nat
}.

Definition set_imageData (d : list Z) (o : meshFromKinect) : meshFromKinect :=
  MeshFromKinect d (needsUpdate o) (prevCanvasData o) (newCanvasData o)
                 (fadeCnt o) (animationFrames o).
Definition set_needsUpdate (b : bool) (o : meshFromKinect) : meshFromKinect :=
  MeshFromKinect (imageData o) b (prevCanvasData o) (newCanvasData o)
                 (fadeCnt o) (animationFrames o).
Definition set_prevCanvasData (v : jsval) (o : meshFromKinect) : meshFromKinect :=
  MeshFromKinect (imageData o) (needsUpdate o) v (newCanvasData o)
                 (fadeCnt o) (animationFrames o).
Definition set_newCanvasData (v : jsval) (o : meshFromKinect) : meshFromKinect :=
  MeshFromKinect (imageData o) (needsUpdate o) (prevCanvasData o) v
                 (fadeCnt o) (animationFrames o).
Definition set_fadeCnt (k : Z) (o : meshFromKinect) : meshFromKinect :=
  MeshFromKinect (imageData o) (needsUpdate o) (prevCanvasData o)
                 (newCanvasData o) k (animationFrames o).
Definition set_animationFrames (n : nat) (o : meshFromKinect) : meshFromKinect :=
  MeshFromKinect (imageData o) (needsUpdate o) (prevCanvasData o)
                 (newCanvasData o) (fadeCnt o) n.

(** A method call either returns or throws; the object keeps whatever was
    assigned before the throw. *)
Inductive error : Type := TypeError.

Inductive outcome : Type :=
  | Returned (this : meshFromKinect)
  | Threw (e : error) (this : meshFromKinect).

Definition object_of (r : outcome) : meshFromKinect :=
  match r with
  | Returned o => o
  | Threw _ o => o
  end.

(* ===================================================================== *)
(** ** Per-sample encoding *)
(* ===================================================================== *)

(** [a[i+1] << 8 | a[i]] *)
Definition sample_total (a : list byte) (i : nat) : Z :=
  Num.bor (Num.shl (elt32 a (i + 1)) 8) (elt32 a i).

(** Lines 387-394: [val1], [val2] of [updateCanvasData]. *)
Definition update_vals (total : Z) : float * float :=
  if total >? 1024
  then (0%float, MathUtils.map (Num.of_Z (2048 - total)) 0 1024 255 0)
  else (MathUtils.map (Num.of_Z total) 0 1024 255 0, 255%float).

(** Lines 441-448: [prev1], [prev2] of [tweenCanvasData]. *)
Definition tween_prev_vals (prevTotal : Z) : float * float :=
  if prevTotal >? 1024
  then (0%float, MathUtils.map (Num.of_Z (2048 - prevTotal)) 0 1024 255 0)
  else (MathUtils.map (Num.of_Z prevTotal) 0 1024 255 0, 255%float).

(** Lines 451-458: [new1], [new2] of [tweenCanvasData]. *)
Definition tween_new_vals (newTotal : Z) : float * float :=
  if newTotal >? 1024
  then (0%float, MathUtils.map (Num.of_Z (2048 - newTotal)) 0 1024 255 0)
  else (MathUtils.map (Num.of_Z newTotal) 0 1024 255 0, 255%float).

(** A pixel as the four Numbers assigned to [data[j .. j+3]]. *)
Definition pixel : Type := (float * float * float * float)%type.

(** [data[j] = r; data[j+1] = g; data[j+2] = b; data[j+3] = a] on a
    [Uint8ClampedArray]: each Number goes through [ToUint8Clamp], and a
    store past the end of a typed array is dropped. *)
Definition store_pixel (j : nat) (p : pixel) (data : list Z) : list Z :=
  let '(r, g, b, a) := p in
  <[(j + 3)%nat := Num.toUint8Clamp a]>
    (<[(j + 2)%nat := Num.toUint8Clamp b]>
       (<[(j + 1)%nat := Num.toUint8Clamp g]>
          (<[j := Num.toUint8Clamp r]> data))).

(** Lines 396-399. *)
Definition update_pixel (depth : list byte) (i : nat) : pixel :=
  let '(val1, val2) := update_vals (sample_total depth i) in
  (val1, val2, val2, 255%float).

(** [var steps = 25] *)
Definition steps : Z := 25.

(** Lines 435-436. *)
Definition newFade (fadeCnt : Z) : float :=
  (Num.of_Z fadeCnt / Num.of_Z steps)%float.
Definition prevFade (fadeCnt : Z) : float :=
  (1 - Num.of_Z fadeCnt / Num.of_Z steps)%float.

(** Lines 440-466: the four Numbers assigned for the sample at [i], from
    the two frames and the two weights of lines 435-436. *)
Definition tween_pixel (prev nw : list byte) (pf nf : float) (i : nat) : pixel :=
  let '(prev1, prev2) := tween_prev_vals (sample_total prev i) in
  let '(new1, new2) := tween_new_vals (sample_total nw i) in
  ((prev1 * pf + new1 * nf)%float,
   (prev2 * pf + new2 * nf)%float,
   (prev2 * pf + new2 * nf)%float,
   255%float).

(* ===================================================================== *)
(** ** The two loops *)
(* ===================================================================== *)

(** [for (var i = 0; i < depth.length; i += 2) { ...; j += 4; }] of
    [updateCanvasData].  The loop runs [ceil(depth.length / 2)] times;
    [fuel] bounds the number of iterations. *)
Fixpoint update_loop (fuel : nat) (depth : list byte) (i j : nat)
    (data : list Z) : list Z :=
  match fuel with
  | O => data
  | S fuel =>
      if (i <? length depth)%nat
      then update_loop fuel depth (i + 2) (j + 4)
             (store_pixel j (update_pixel depth i) data)
      else data
  end.

(** [for (var i = 0; i < this.prevCanvasData.length; i += 2) { ... }] of
    [tweenCanvasData]: the bound is the length of the previous frame. *)
Fixpoint tween_loop (fuel : nat) (prev nw : list byte) (pf nf : float)
    (i j : nat) (data : list Z) : list Z :=
  match fuel with
  | O => data
  | S fuel =>
      if (i <? length prev)%nat
      then tween_loop fuel prev nw pf nf (i + 2) (j + 4)
             (store_pixel j (tween_pixel prev nw pf nf i) data)
      else data
  end.

(* ===================================================================== *)
(** ** The methods *)
(* ===================================================================== *)

(** [updateCanvasData(depth)], lines 377-408.  [putImageData] and the
    texture upload belong to the browser; what remains is the pixel store
    and the [needsUpdate] flag. *)
Definition updateCanvasData (this : meshFromKinect) (depth : list byte)
    : outcome :=
  let data := update_loop (length depth) depth 0 0 (imageData this) in
  Returned (set_needsUpdate true (set_imageData data this)).

(** Lines 432-483: one blend pass over the two stored frames, then the
    step counter.  Reading [.length] of a [prevCanvasData] that is no array
    throws; so does indexing a [newCanvasData] that is no array, which
    happens in the first iteration, before any store. *)
Definition blend_pass (this : meshFromKinect) : outcome :=
  let nf := newFade (fadeCnt this) in
  let pf := prevFade (fadeCnt this) in
  match prevCanvasData this with
  | JArray prev =>
      let finish (data : list Z) : outcome :=
        let this := set_needsUpdate true (set_imageData data this) in
        let this := set_fadeCnt (fadeCnt this + 1) this in
        if fadeCnt this >? steps
        then Returned (set_fadeCnt 0 this)
        else Returned (set_animationFrames (S (animationFrames this)) this)
      in
      match newCanvasData this with
      | JArray nw =>
          finish (tween_loop (length prev) prev nw pf nf 0 0 (imageData this))
      | _ =>
          if (0 <? length prev)%nat then Threw TypeError this
          else finish (imageData this)
      end
  | _ => Threw TypeError this
  end.

(** Lines 425-484: the [else] branch of [tweenCanvasData]. *)
Definition tween_else (this : meshFromKinect) (depth : jsval) : outcome :=
  let this :=
    if fadeCnt this =? 0
    then set_newCanvasData depth
           (set_prevCanvasData (newCanvasData this) this)
    else this
  in
  blend_pass this.

(** The argument of [tweenCanvasData]: a [Uint8Array], or nothing at all
    (the animation-frame callback calls [self.tweenCanvasData()]). *)
Definition arg (depth : option (list byte)) : jsval :=
  match depth with
  | Some a => JArray a
  | None => JUndefined
  end.

(** [tweenCanvasData(depth)], lines 416-487.  When [newCanvasData] is
    [null] the method stores [depth] and calls itself with it; since
    [depth] is not [null], that inner call takes the [else] branch. *)
Definition tweenCanvasData (this : meshFromKinect)
    (depth : option (list byte)) : outcome :=
  match newCanvasData this with
  | JNull => tween_else (set_newCanvasData (arg depth) this) (arg depth)
  | _ => tween_else this (arg depth)
  end.

(** One pending animation-frame callback runs. *)
Definition animationFrame (this : meshFromKinect) : option outcome :=
  match animationFrames this with
  | O => None
  | S n => Some (tweenCanvasData (set_animationFrames n this) None)
  end.

(** Lines 70-72 and 102-105 of the constructor: a 640x480 canvas, no frame
    stored unless [config.initDepth] is given. *)
Definition canvas_bytes : nat := (4 * (640 * 480))%nat.

Definition construct (initDepth : option (list byte)) : outcome :=
  let this :=
    MeshFromKinect (replicate canvas_bytes 0) false JNull
      (match initDepth with Some a => JArray a | None => JNull end) 0 0 in
  match initDepth with
  | Some a => tweenCanvasData this (Some a)
  | None => Returned this
  end.

(** The calls a page can make on the object, and the states they lead to. *)
Inductive call : Type :=
  | CallUpdate (depth : list byte)
  | CallTween (depth : option (list byte))
  | AnimationFrame.

Definition perform (this : meshFromKinect) (c : call) : option outcome :=
  match c with
  | CallUpdate depth => Some (updateCanvasData this depth)
  | CallTween depth => Some (tweenCanvasData this depth)
  | AnimationFrame => animationFrame this
  end.

Inductive reachable : meshFromKinect -> Prop :=
  | reachable_construct initDepth :
      reachable (object_of (construct initDepth))
  | reachable_perform this c r :
      reachable this -> perform this c = Some r -> reachable (object_of r).

(** [n] animation frames in a row: [None] when a frame is asked for and no
    callback is pending, the throw when one of them throws. *)
Fixpoint animate (n : nat) (this : meshFromKinect) : option outcome :=
  match n with
  | O => Some (Returned this)
  | S n =>
      match animationFrame this with
      | Some (Returned this') => animate n this'
      | Some (Threw e this') => Some (Threw e this')
      | None => None
      end
  end.

(** The step counter after a completed blend pass that started at [k]. *)
Definition next_fadeCnt (k : Z) : Z :=
  if k + 1 >? steps then 0 else k + 1.

(* ===================================================================== *)
(** ** What a loop leaves in the pixel store *)
(* ===================================================================== *)

Definition channel (p : pixel) (c : nat) : float :=
  let '(r, g, b, a) := p in
  match c with
  | 0%nat => r
  | 1%nat => g
  | 2%nat => b
  | _ => a
  end.

(** The pixel store after the first [n] pixels have been written from
    [px]: byte [x] holds channel [x mod 4] of pixel [x / 4] when [x < 4n],
    and what it held before otherwise.  The store never grows. *)
Definition painted (px : nat -> pixel) (n : nat) (data : list Z) : list Z :=
  imap (fun x old =>
          if (x <? 4 * n)%nat
          then Num.toUint8Clamp (channel (px (x / 4)%nat) (x mod 4)%nat)
          else old) data.

(** Number of iterations of a loop [for (i = 0; i < len; i += 2)]. *)
Definition pixels (len : nat) : nat := ((len + 1) / 2)%nat.

(** The pixel functions of the two loops, by pixel number. *)
Definition update_px (depth : list byte) (m : nat) : pixel :=
  update_pixel depth (2 * m).

Definition tween_px (prev nw : list byte) (pf nf : float) (m : nat) : pixel :=
  tween_pixel prev nw pf nf (2 * m).

(* ===================================================================== *)
(** ** Properties the claims are stated with *)
(* ===================================================================== *)

(** The counter stays in [0,25]; it is 0 as long as no frame is stored;
    and while it is not 0 the previous frame is an array. *)
Definition invariant (this : meshFromKinect) : Prop :=
  0 <= fadeCnt this <= steps /\
  (newCanvasData this = JNull -> fadeCnt this = 0) /\
  (fadeCnt this <> 0 -> exists prev, prevCanvasData this = JArray prev).

(** [x] is a finite Number whose value is the rational [q]. *)
Definition value_is (x : float) (q : Q) : Prop :=
  exists q', Num.exact x = Some q' /\ (q' == q)%Q.

(** The blend of the spec's words: [prevChannel * (1 - k / totalSteps) +
    newChannel * (k / totalSteps)], in double precision. *)
Definition spec_blend (prevChannel newChannel : float) (k : Z) : float :=
  (prevChannel * (1 - Num.of_Z k / Num.of_Z steps)
   + newChannel * (Num.of_Z k / Num.of_Z steps))%float.

(* ===================================================================== *)
(** ** Checking a property on every sample value *)
(* ===================================================================== *)

(** A sample is two bytes, so a property of the encoder or of the blend
    is decided by running the code on each of the 65536 totals. *)
Fixpoint zrange (lo : Z) (n : nat) : list Z :=
  match n with
  | O => nil
  | S n => lo :: zrange (lo + 1) n
  end.

Definition all_in (lo hi : Z) (P : Z -> bool) : bool :=
  forallb P (zrange lo (Z.to_nat (hi - lo + 1))).

Definition feq (x y : float) : bool := PrimFloat.Leibniz.eqb x y.

(** [h << 8 | l] is [256 h + l] on bytes: the two operands share no bit. *)
Definition total_check (h : Z) : bool :=
  all_in 0 255 (fun l => Z.lor (Z.shiftl h 8) l =? 256 * h + l).

(** With weights 1 and 0 a blend returns the channel weighted 1: at step 0
    that is the previous frame's, at step 25 the new frame's. *)
Definition ends_check (t : Z) : bool :=
  let '(v1, v2) := update_vals t in
  feq (v1 * newFade 0) 0 && feq (v2 * newFade 0) 0 &&
  feq (v1 * prevFade 0 + 0) v1 && feq (v2 * prevFade 0 + 0) v2 &&
  feq (v1 * prevFade steps) 0 && feq (v2 * prevFade steps) 0 &&
  feq (0 + v1 * newFade steps) v1 && feq (0 + v2 * newFade steps) v2.

(** Blending a channel with itself, at step [k] and with given weights. *)
Definition self_blend (x : float) (k : Z) : float :=
  (x * prevFade k + x * newFade k)%float.

(** Whether the self-blend of [x] with the weights [pf], [nf] is stored as
    the byte [cx] the plain [x] is stored as. *)
Definition same_byte (x : float) (cx : Z) (pf nf : float) : bool :=
  let y := (x * pf + x * nf)%float in
  feq y x || (Num.toUint8Clamp y =? cx).

(** The steps of a fade with their two weights. *)
Definition weights : list (Z * (float * float)) :=
  List.map (fun k => (k, (prevFade k, newFade k)))
    (zrange 0 (Z.to_nat (steps + 1))).

(** The two samples on which a self-blend stores another byte than the
    plain encoding does, both at step 1. *)
Definition tie (t k : Z) : bool :=
  (k =? 1) && ((t =? 512) || (t =? 1536)).

(** The channel of a sample that depends on its total; the other one is
    the constant 0 (low, above 1024) or 255 (high, up to 1024). *)
Definition varying (t : Z) : float :=
  let '(v1, v2) := update_vals t in
  if t >? 1024 then v2 else v1.

Definition self_blend_check (ws : list (Z * (float * float))) (t : Z)
    : bool :=
  let x := varying t in
  let cx := Num.toUint8Clamp x in
  forallb (fun w => tie t (fst w) || same_byte x cx (fst (snd w)) (snd (snd w)))
    ws.

Definition const_blend_check (w : Z * (float * float)) : bool :=
  same_byte 0 (Num.toUint8Clamp 0) (fst (snd w)) (snd (snd w)) &&
  same_byte 255 (Num.toUint8Clamp 255) (fst (snd w)) (snd (snd w)).

Definition weight_check (k : Z) : bool :=
  (0 <=? newFade k)%float && (newFade k <=? 1)%float &&
  (0 <=? prevFade k)%float && (prevFade k <=? 1)%float.

(** A finite Number with the rational value [q]. *)
Definition has_value (x : float) (q : Q) : bool :=
  match Num.exact x with
  | Some q' => Qeq_bool q' q
  | None => false
  end.

Definition exact_check (t : Z) : bool :=
  has_value (varying t)
    (mapQ (inject_Z (if t >? 1024 then 2048 - t else t)) 0 (inject_Z 1024)
       (inject_Z 255) 0).

(** [ToUint8Clamp] read off the exact rational value of a Number, to check
    [Num.toUint8Clamp] against. *)
Definition clampQ (q : Q) : Z :=
  if Qle_bool q 0 then 0
  else if Qle_bool (inject_Z 255) q then 255
  else
    let f := Qfloor q in
    match Qcompare (q - inject_Z f) (1 # 2) with
    | Lt => f
    | Gt => f + 1
    | Eq => if Z.even f then f else f + 1
    end.

Definition clamp_agrees (x : float) : bool :=
  match Num.exact x with
  | Some q => Num.toUint8Clamp x =? clampQ q
  | None => false
  end.

(** The quarter points of [0,255]: [n], [n + 1/4], [n + 1/2], [n + 3/4]. *)
Definition clamp_grid_check (n : Z) : bool :=
  (Num.toUint8Clamp (Num.of_Z n) =? n) &&
  (Num.toUint8Clamp (Num.of_Z n + 0.25) =? n) &&
  (Num.toUint8Clamp (Num.of_Z n + 0.5) =? (if Z.even n then n else n + 1)) &&
  (Num.toUint8Clamp (Num.of_Z n + 0.75) =? n + 1).

(** The encoder's values over the sensor's range, and their self-blend at
    step 1. *)
Definition clamp_encoder_check (t : Z) : bool :=
  clamp_agrees (varying t) && clamp_agrees (self_blend (varying t) 1).

(* ===================================================================== *)
(** ** Concrete objects *)
(* ===================================================================== *)

(** The objects used as concrete inputs below: a store of [n] pixels, two
    stored frames, the counter at [k] and one animation frame pending. *)
Definition fading (n : nat) (prev nw : list byte) (k : Z) : meshFromKinect :=
  MeshFromKinect (replicate (4 * n) 0) true (JArray prev) (JArray nw) k 1.

(** An object whose last fade, to [cur], is over. *)
Definition idle (n : nat) (cur : list byte) : meshFromKinect :=
  MeshFromKinect (replicate (4 * n) 0) true (JArray cur) (JArray cur) 0 0.

(** The object right after [new meshFromKinect({initDepth: a, ...})]. *)
Definition constructed (a : list byte) : meshFromKinect :=
  object_of (construct (Some a)).

(* ===================================================================== *)
(** ** Orderly use *)
(* ===================================================================== *)

(** The runs in which [tweenCanvasData] is handed a frame only while the
    counter is 0, that is, never in the middle of a fade. *)
Inductive orderly : meshFromKinect -> Prop :=
  | orderly_construct initDepth :
      orderly (object_of (construct initDepth))
  | orderly_update this depth :
      orderly this -> orderly (object_of (updateCanvasData this depth))
  | orderly_submit this depth :
      orderly this -> fadeCnt this = 0 ->
      orderly (object_of (tweenCanvasData this (Some depth)))
  | orderly_frame this r :
      orderly this -> animationFrame this = Some r -> orderly (object_of r).

(** No frame stored yet, or two arrays stored with one callback pending
    exactly while a fade is under way. *)
Definition in_step (this : meshFromKinect) : Prop :=
  (prevCanvasData this = JNull /\ newCanvasData this = JNull /\
   fadeCnt this = 0 /\ animationFrames this = 0%nat) \/
  (exists prev nw,
     prevCanvasData this = JArray prev /\ newCanvasData this = JArray nw /\
     0 <= fadeCnt this <= steps /\
     animationFrames this = if fadeCnt this =? 0 then 0%nat else 1%nat).

(* ===================================================================== *)
(** ** The stored pixel of a sample *)
(* ===================================================================== *)

(** The red and the green byte the store holds for a sample of total
    [t]: [val1] and [val2] of [updateCanvasData], written to a
    [Uint8ClampedArray]. *)
Definition stored (t : Z) : Z * Z :=
  let '(val1, val2) := update_vals t in
  (Num.toUint8Clamp val1, Num.toUint8Clamp val2).

Definition saturated_check (t : Z) : bool :=
  (fst (stored t) =? 0) && (snd (stored t) =? 255).

(** The place of a stored pixel in the order of the totals it stands
    for: red falls from 255 to 0 while green is 255, then green rises. *)
Definition rank (c : Z * Z) : Z :=
  if snd c =? 255 then 255 - fst c else 256 + snd c.

Definition rank_step_check (t : Z) : bool :=
  rank (stored t) <=? rank (stored (t + 1)).

Definition rank_gap_check (t : Z) : bool :=
  rank (stored t) <? rank (stored (t + 5)).

(* ===================================================================== *)
(** ** [_geometry]: the index and the colour loop *)
(* ===================================================================== *)

(** [_geometry] (lines 142-266, and the same text in
    [share/MeshFromDepth.js], lines 174-298) builds a plane of
    [gridX * gridY] cells.  Modelled here: the grid sizes, the typed arrays
    [indices] and [colors], and the second pair of loops, which fills both.
    [polycount] is taken as an integer (the value of
    [Math.floor(this.polycount)]); allocation is taken to succeed. *)

(** [Math.floor(this.polycount) || 1] *)
Definition grid (polycount : Z) : Z :=
  if polycount =? 0 then 1 else polycount.

(** [(vertices.length / 3) > 65535 ? Uint32Array : Uint16Array]: the width
    of one element of [indices]. *)
Definition index_bits (vertices_length : Z) : Z :=
  if vertices_length / 3 >? 65535 then 32 else 16.

(** [indices[i] = v] on a [Uint16Array] or [Uint32Array]: the value is
    reduced modulo [2^bits], and a write past the end is dropped. *)
Definition store_index (bits : Z) (i : nat) (v : Z) (indices : list Z)
    : list Z :=
  <[i := v mod 2 ^ bits]> indices.

(** An array whose first [n] elements have been written from [f]. *)
Definition filled {A : Type} (f : nat -> A) (n : nat) (data : list A)
    : list A :=
  imap (fun x old => if (x <? n)%nat then f x else old) data.

(** The vertex a slot of [indices] names: slot [x] belongs to cell
    [x / 6], at column [(x / 6) mod gridX] and row [(x / 6) / gridX], and
    holds its corner [a], [b], [d], [b], [c] or [d]. *)
Definition corner (gridX : Z) (x : nat) : Z :=
  let ix := Z.of_nat (x / 6) mod gridX in
  let iy := Z.of_nat (x / 6) / gridX in
  match (x mod 6)%nat with
  | 0%nat => ix + (gridX + 1) * iy
  | 1%nat | 3%nat => ix + (gridX + 1) * (iy + 1)
  | 4%nat => (ix + 1) + (gridX + 1) * (iy + 1)
  | _ => (ix + 1) + (gridX + 1) * iy
  end.

Section Colors.

(** What a [Float32Array] element holds, its initial content, and the
    three numbers [color.r/255], [color.g/255], [color.b/255] as stored,
    for the [n]th [BB.Color] the loop constructs ([Math.random] decides
    them; [BB.Color] is not part of these sources). *)
Context {V : Type} (zero : V) (component : nat -> nat -> V).

(** The variables the second pair of loops updates; [made] counts the
    colours constructed so far. *)
Record geometry : Type := Geometry {
  offset : nat;
  offset2 : nat;
  made : nat;
  indices : list Z;
  colors : list V
}.

(** The body of the inner loop, lines 215-253. *)
Definition cell (bits gridX1 ix iy : Z) (geo : geometry) : geometry :=
  let a := ix + gridX1 * iy in
  let b := ix + gridX1 * (iy + 1) in
  let c := (ix + 1) + gridX1 * (iy + 1) in
  let d := (ix + 1) + gridX1 * iy in
  let o := offset geo in
  let indices := store_index bits o a (indices geo) in
  let indices := store_index bits (o + 1) b indices in
  let indices := store_index bits (o + 2) d indices in
  let indices := store_index bits (o + 3) b indices in
  let indices := store_index bits (o + 4) c indices in
  let indices := store_index bits (o + 5) d indices in
  let r := component (made geo) 0%nat in
  let g := component (made geo) 1%nat in
  let b' := component (made geo) 2%nat in
  let o2 := offset2 geo in
  let colors := <[o2 := r]> (colors geo) in
  let colors := <[(o2 + 1)%nat := g]> colors in
  let colors := <[(o2 + 2)%nat := b']> colors in
  let colors := <[(o2 + 3)%nat := r]> colors in
  let colors := <[(o2 + 4)%nat := g]> colors in
  let colors := <[(o2 + 5)%nat := b']> colors in
  let colors := <[(o2 + 6)%nat := r]> colors in
  let colors := <[(o2 + 7)%nat := g]> colors in
  let colors := <[(o2 + 8)%nat := b']> colors in
  let colors := <[(o2 + 9)%nat := r]> colors in
  let colors := <[(o2 + 10)%nat := g]> colors in
  let colors := <[(o2 + 11)%nat := b']> colors in
  Geometry (o + 6) (o2 + 12) (S (made geo)) indices colors.

(** [for (var ix = 0; ix < gridX; ix ++) { ... }]; [fuel] bounds the
    number of iterations. *)
Fixpoint row_loop (fuel : nat) (bits gridX gridX1 iy ix : Z)
    (geo : geometry) : geometry :=
  match fuel with
  | O => geo
  | S fuel =>
      if ix <? gridX
      then row_loop fuel bits gridX gridX1 iy (ix + 1)
             (cell bits gridX1 ix iy geo)
      else geo
  end.

(** [for (var iy = 0; iy < gridY; iy ++) { ... }] *)
Fixpoint grid_loop (fuel : nat) (bits gridX gridY gridX1 iy : Z)
    (geo : geometry) : geometry :=
  match fuel with
  | O => geo
  | S fuel =>
      if iy <? gridY
      then grid_loop fuel bits gridX gridY gridX1 (iy + 1)
             (row_loop (Z.to_nat gridX) bits gridX gridX1 iy 0 geo)
      else geo
  end.

(** [_geometry], as far as [indices] and [colors] go.  A typed array is
    created filled with zeros. *)
Definition _geometry (polycount : Z) : geometry :=
  let gridX := grid polycount in
  let gridY := grid polycount in
  let gridX1 := gridX + 1 in
  let gridY1 := gridY + 1 in
  let vertices_length := gridX1 * gridY1 * 3 in
  let colors := replicate (Z.to_nat (gridX1 * gridY1 * 3)) zero in
  let indices := replicate (Z.to_nat (gridX * gridY * 6)) 0 in
  grid_loop (Z.to_nat gridY) (index_bits vertices_length) gridX gridY gridX1
    0 (Geometry 0 0 0 indices colors).

(** The loop variables after [c] cells, over the arrays as allocated. *)
Definition after_cells (bits gridX : Z) (c : nat) (indices0 : list Z)
    (colors0 : list V) : geometry :=
  Geometry (6 * c) (12 * c) c
    (filled (fun x => corner gridX x mod 2 ^ bits) (6 * c) indices0)
    (filled (fun x => component (x / 12)%nat (x mod 3)%nat) (12 * c)
       colors0).

End Colors.

(* ===================================================================== *)
(** ** [_material]: the uniforms *)
(* ===================================================================== *)

(** A JavaScript value other than [undefined]; objects by reference. *)
Inductive value : Type :=
  | VNull
  | VBoolean (b : bool)
  | VNumber (x : float)
  | VString (s : string)
  | VObject (ref : nat).

(** One element of [this.uniforms]: an object whose properties [name],
    [type] and [value] may be missing ([None] is [undefined]).  A name is
    taken to be a string, as the error message of the method asks. *)
Record entry : Type := Entry {
  entry_name : option string;
  entry_type : option value;
  entry_value : option value
}.

(** [{ type: ..., value: ... }] *)
Record uniform : Type := Uniform {
  uniform_type : value;
  uniform_value : value
}.

(** The object [unis]: its own properties, and its prototype, which is
    [Object.prototype] ([None]) until an assignment to [__proto__] puts an
    object [{ type: ..., value: ... }] in its place. *)
Record uniforms_object : Type := UniformsObject {
  own : gmap string uniform;
  prototype : option uniform
}.

(** Lines 272-281: the object literal [unis] starts as. *)
Definition unis0 (texture width height pointsize : value)
    : uniforms_object :=
  UniformsObject
    (<["pointsize" := Uniform (VString "f") pointsize]>
       (<["height" := Uniform (VString "f") height]>
          (<["width" := Uniform (VString "f") width]>
             (<["map" := Uniform (VString "t") texture]> ∅))))
    None.

(** [unis[name] = u] on an ordinary object, [u] being an object: the key
    [__proto__] reaches the setter inherited from [Object.prototype],
    which makes [u] the prototype of [unis] and adds no property; any
    other key adds or replaces an own property. *)
Definition set_property (name : string) (u : uniform)
    (unis : uniforms_object) : uniforms_object :=
  if String.eqb name "__proto__"
  then UniformsObject (own unis) (Some u)
  else UniformsObject (<[name := u]> (own unis)) (prototype unis).

(** What reading [unis[key]] finds: an own property; or, the prototype
    being an object [{ type, value }], the value of one of these two; or
    what [Object.prototype] holds under that key (the accessor
    [__proto__] is there). *)
Inductive found : Type :=
  | OwnProperty (u : uniform)
  | Inherited (v : value)
  | FromObjectPrototype.

Definition read_property (unis : uniforms_object) (key : string) : found :=
  match own unis !! key with
  | Some u => OwnProperty u
  | None =>
      match prototype unis with
      | Some p =>
          if String.eqb key "type" then Inherited (uniform_type p)
          else if String.eqb key "value" then Inherited (uniform_value p)
          else FromObjectPrototype
      | None => FromObjectPrototype
      end
  end.

(** Lines 283-299, the loop over [this.uniforms]; [None] stands for the
    [Error] thrown at an element that lacks one of the three properties. *)
Fixpoint uniforms_loop (uniforms : list entry) (unis : uniforms_object)
    : option uniforms_object :=
  match uniforms with
  | [] => Some unis
  | e :: rest =>
      match entry_name e, entry_type e, entry_value e with
      | Some name, Some type, Some val =>
          uniforms_loop rest (set_property name (Uniform type val) unis)
      | _, _, _ => None
      end
  end.

(** [_material( width, height )] (lines 268-345, and lines 300-377 of
    [share/MeshFromDepth.js]), as far as the [uniforms] it hands to
    [THREE.ShaderMaterial] go.  [uniforms] is [this.uniforms]: [undefined]
    or an [Array]. *)
Definition _material (texture pointsize width height : value)
    (uniforms : option (list entry)) : option uniforms_object :=
  match uniforms with
  | None => Some (unis0 texture width height pointsize)
  | Some l => uniforms_loop l (unis0 texture width height pointsize)
  end.

(** Whether an element has the three properties. *)
Definition complete (e : entry) : bool :=
  match entry_name e, entry_type e, entry_value e with
  | Some _, Some _, Some _ => true
  | _, _, _ => false
  end.

(** The uniform the last element named [name] gives, if there is one. *)
Fixpoint latest (name : string) (uniforms : list entry) : option uniform :=
  match uniforms with
  | [] => None
  | e :: rest =>
      match latest name rest with
      | Some u => Some u
      | None =>
          match entry_name e, entry_type e, entry_value e with
          | Some n, Some type, Some val =>
              if String.eqb n name then Some (Uniform type val) else None
          | _, _, _ => None
          end
      end
  end.

(* ===================================================================== *)
(** ** [_createMesh] and the loading of the shaders *)
(* ===================================================================== *)

(** [new THREE.Points( geometry, material )] or
    [new THREE.Mesh( geometry, material )] *)
Inductive mesh_kind : Type := Points | Mesh.

(** What [_createMesh] throws. *)
Inductive mesh_error : Type := Error.

(** The events the object waits for after its construction: a callback
    of [setTimeout], and the [load] event of either request of
    [_loadFile], with the text received. *)
Inductive event : Type :=
  | TimeoutFires
  | VertexLoaded (responseText : string)
  | FragmentLoaded (responseText : string).

Section CreateMesh.

Context {V : Type} (zero : V) (component : nat -> nat -> V).

Record mesh : Type := NewMesh {
  mesh_kind_of : mesh_kind;
  mesh_geometry : @geometry V;
  mesh_uniforms : uniforms_object
}.

(** The properties of [config] and of the object that [_createMesh],
    [_geometry] and [_material] read.  [type] is [undefined] or a string;
    [polycount] is given by its floor. *)
Record config : Type := Config {
  config_type : option string;
  polycount : Z;
  texture : value;
  pointsize : value;
  canvas_width : value;
  canvas_height : value;
  uniforms : option (list entry)
}.

(** The properties [_createMesh] and the load handlers write, the meshes
    the object has added to the scene, and the number of [setTimeout]
    callbacks pending. *)
Record loader : Type := Loader {
  vertexShader : option string;
  fragmentShader : option string;
  this_mesh : option mesh;
  scene_children : list mesh;
  loaded : bool;
  timeouts : nat
}.

Inductive created : Type :=
  | Created (this : loader)
  | ThrewError (e : mesh_error) (this : loader).

Definition loader_of (r : created) : loader :=
  match r with
  | Created this => this
  | ThrewError _ this => this
  end.

(** Lines 115-120: [type], or the [Error] thrown. *)
Definition mesh_type (cfg : config) : option mesh_kind :=
  match config_type cfg with
  | Some s =>
      if String.eqb s "point" then Some Points
      else if String.eqb s "mesh" then Some Mesh
      else None
  | None => Some Points
  end.

(** [_createMesh], lines 109-139. *)
Definition _createMesh (cfg : config) (this : loader) : created :=
  match fragmentShader this, vertexShader this with
  | Some _, Some _ =>
      match mesh_type cfg with
      | None => ThrewError Error this
      | Some type =>
          let geometry := _geometry zero component (polycount cfg) in
          match _material (texture cfg) (pointsize cfg) (canvas_width cfg)
                  (canvas_height cfg) (uniforms cfg) with
          | None => ThrewError Error this
          | Some material =>
              let m := NewMesh type geometry material in
              Created
                (Loader (vertexShader this) (fragmentShader this) (Some m)
                   (scene_children this ++ [m]) true (timeouts this))
          end
      end
  | _, _ =>
      Created
        (Loader (vertexShader this) (fragmentShader this) (this_mesh this)
           (scene_children this) (loaded this) (S (timeouts this)))
  end.

(** One event.  The callback of [setTimeout] calls [_createMesh]; the
    handlers of [_loadFile] (lines 352-356) store the text. *)
Definition handle (cfg : config) (e : event) (this : loader) : created :=
  match e with
  | TimeoutFires =>
      match timeouts this with
      | O => Created this
      | S n =>
          _createMesh cfg
            (Loader (vertexShader this) (fragmentShader this)
               (this_mesh this) (scene_children this) (loaded this) n)
      end
  | VertexLoaded responseText =>
      Created
        (Loader (Some responseText) (fragmentShader this) (this_mesh this)
           (scene_children this) (loaded this) (timeouts this))
  | FragmentLoaded responseText =>
      Created
        (Loader (vertexShader this) (Some responseText) (this_mesh this)
           (scene_children this) (loaded this) (timeouts this))
  end.

(** A sequence of events; an [Error] thrown inside a callback ends that
    callback only. *)
Definition run (cfg : config) (events : list event) (this : loader)
    : loader :=
  fold_left (fun this e => loader_of (handle cfg e this)) events this.

(** The call [this._createMesh()] that ends the shader part of the
    constructor (line 99): a shader given by the ID of an element is there
    already, one given by a file path is not. *)
Definition start (cfg : config) (vertex fragment : option string)
    : created :=
  _createMesh cfg (Loader vertex fragment None [] false 0).

(** The object after the constructor's call of [_createMesh] and the
    events that follow it. *)
Definition after_events (cfg : config) (vertex fragment : option string)
    (events : list event) : loader :=
  run cfg events (loader_of (start cfg vertex fragment)).

(** Nothing is pending once the mesh is in the scene, and at most one
    callback before. *)
Definition polling (this : loader) : Prop :=
  (loaded this = false /\ scene_children this = [] /\
   (timeouts this <= 1)%nat) \/
  (loaded this = true /\ length (scene_children this) = 1%nat /\
   timeouts this = 0%nat).

(** With a [type] the method refuses: never [loaded]; one callback
    pending until the [Error], which both shader texts precede. *)
Definition refused (this : loader) : Prop :=
  loaded this = false /\ this_mesh this = None /\
  scene_children this = [] /\
  (timeouts this = 1%nat \/
   timeouts this = 0%nat /\ vertexShader this <> None /\
   fragmentShader this <> None).

(** With a [type] and uniforms the method accepts: one callback pending
    and nothing built, or the mesh [m] built and nothing pending. *)
Definition building (m : mesh) (this : loader) : Prop :=
  (loaded this = false /\ this_mesh this = None /\
   scene_children this = [] /\ timeouts this = 1%nat) \/
  (loaded this = true /\ this_mesh this = Some m /\
   scene_children this = [m] /\ timeouts this = 0%nat).

End CreateMesh.

(** The concrete inputs used below: colours told apart by their number
    and component, a configuration whose [type] the method refuses, and
    one it accepts. *)
Definition tags (n k : nat) : Z := Z.of_nat (3 * n + k).

Definition cube_config : config :=
  Config (Some "cube"%string) 10 (VObject 0) (VNumber 1) (VNumber 640)
    (VNumber 480) None.

Definition mesh_config : config :=
  Config (Some "mesh"%string) 1 (VObject 0) (VNumber 1) (VNumber 640)
    (VNumber 480) None.

(** An object that has both texts and one callback pending. *)
Definition both_texts : @loader Z :=
  Loader (Some "v"%string) (Some "f"%string) None [] false 1.

(** The mesh [mesh_config] asks for. *)
Definition built_mesh : @mesh Z :=
  NewMesh Mesh (_geometry 0 tags (polycount mesh_config))
    (unis0 (VObject 0) (VNumber 640) (VNumber 480) (VNumber 1)).

(* ===================================================================== *)
(** ** What a loop leaves in the pixel store: lemmas *)
(* ===================================================================== *)

Section Painted.

Variable px : nat -> pixel.

Lemma length_painted n (data : list Z) :
  length (painted px n data) = length data.
Proof. unfold painted. apply length_imap. Qed.

Lemma lookup_painted n (data : list Z) (x : nat) :
  painted px n data !! x =
  (fun old => if (x <? 4 * n)%nat
              then Num.toUint8Clamp (channel (px (x / 4)%nat) (x mod 4)%nat)
              else old) <$> data !! x.
Proof. unfold painted. apply list_lookup_imap. Qed.

Lemma painted_0 (data : list Z) : painted px 0 data = data.
Proof.
  apply list_eq; intros x. rewrite lookup_painted.
  destruct (data !! x); reflexivity.
Qed.

Lemma store_pixel_painted m (data : list Z) :
  store_pixel (4 * m) (px m) (painted px m data) = painted px (S m) data.
Proof.
  apply list_eq; intros x. unfold store_pixel.
  destruct (px m) as [[[r g] b] a] eqn:Hpx.
  rewrite !list_lookup_insert, !length_insert, length_painted.
  rewrite !lookup_painted.
  destruct (data !! x) as [old|] eqn:Hx.
  - apply lookup_lt_Some in Hx.
    assert (Hdiv : (x = 4 * (x / 4) + x mod 4)%nat) by apply Nat.div_mod_eq.
    assert (Hmod : (x mod 4 < 4)%nat) by (apply Nat.mod_upper_bound; lia).
    cbv [fmap option_fmap option_map].
    destruct (Nat.ltb_spec x (4 * m)); destruct (Nat.ltb_spec x (4 * S m));
      repeat case_decide; try lia; try reflexivity.
    all: replace (x / 4)%nat with m by lia.
    all: rewrite Hpx; f_equal; f_equal.
    + replace (x mod 4)%nat with 3%nat by lia. reflexivity.
    + replace (x mod 4)%nat with 2%nat by lia. reflexivity.
    + replace (x mod 4)%nat with 1%nat by lia. reflexivity.
    + replace (x mod 4)%nat with 0%nat by lia. reflexivity.
  - apply lookup_ge_None in Hx.
    cbv [fmap option_fmap option_map].
    repeat case_decide; try reflexivity; lia.
Qed.

End Painted.

Lemma store_pixel_painted_eq (px : nat -> pixel) m (p : pixel)
    (data : list Z) :
  p = px m ->
  store_pixel (4 * m) p (painted px m data) = painted px (S m) data.
Proof. intros ->. apply store_pixel_painted. Qed.

Lemma painted_painted (px qx : nat -> pixel) n (data : list Z) :
  painted px n (painted qx n data) = painted px n data.
Proof.
  apply list_eq; intros x. rewrite !lookup_painted.
  destruct (data !! x); cbv [fmap option_fmap option_map]; [|reflexivity].
  destruct (x <? 4 * n)%nat; reflexivity.
Qed.

Lemma painted_ext (px qx : nat -> pixel) n (data : list Z) :
  (forall m c, (m < n)%nat -> (c < 4)%nat ->
     Num.toUint8Clamp (channel (px m) c) =
     Num.toUint8Clamp (channel (qx m) c)) ->
  painted px n data = painted qx n data.
Proof.
  intros H. apply list_eq; intros x. rewrite !lookup_painted.
  destruct (data !! x); cbv [fmap option_fmap option_map]; [|reflexivity].
  destruct (Nat.ltb_spec x (4 * n)); [|reflexivity].
  f_equal. apply H.
  - apply Nat.Div0.div_lt_upper_bound. lia.
  - apply Nat.mod_upper_bound. lia.
Qed.

Lemma pixels_lt (len m : nat) :
  (2 * m < len)%nat <-> (m < pixels len)%nat.
Proof.
  unfold pixels.
  pose proof (Nat.div_mod_eq (len + 1) 2).
  pose proof (Nat.mod_upper_bound (len + 1) 2).
  lia.
Qed.

Lemma pixels_le (len : nat) : (pixels len <= len)%nat.
Proof.
  unfold pixels.
  pose proof (Nat.div_mod_eq (len + 1) 2).
  pose proof (Nat.mod_upper_bound (len + 1) 2).
  lia.
Qed.

(** Both loops run to their end on any fuel that covers the remaining
    pixels, and leave the painted store. *)
Lemma update_loop_painted (depth : list byte) (data : list Z) fuel m :
  (pixels (length depth) - m <= fuel)%nat ->
  (m <= pixels (length depth))%nat ->
  update_loop fuel depth (2 * m) (4 * m) (painted (update_px depth) m data) =
  painted (update_px depth) (pixels (length depth)) data.
Proof.
  revert m. induction fuel as [|fuel IH]; intros m Hfuel Hm.
  - simpl. f_equal. lia.
  - cbn [update_loop].
    destruct (Nat.ltb_spec (2 * m) (length depth)) as [Hlt|Hge].
    + apply pixels_lt in Hlt.
      rewrite (store_pixel_painted_eq (update_px depth) m
                 (update_pixel depth (2 * m)) data eq_refl).
      replace (2 * m + 2)%nat with (2 * S m)%nat by lia.
      replace (4 * m + 4)%nat with (4 * S m)%nat by lia.
      apply IH; lia.
    + f_equal.
      destruct (Nat.lt_ge_cases m (pixels (length depth))) as [Hlt|Hge']; [|lia].
      apply pixels_lt in Hlt. lia.
Qed.

Lemma tween_loop_painted (prev nw : list byte) (pf nf : float)
    (data : list Z) fuel m :
  (pixels (length prev) - m <= fuel)%nat ->
  (m <= pixels (length prev))%nat ->
  tween_loop fuel prev nw pf nf (2 * m) (4 * m)
    (painted (tween_px prev nw pf nf) m data) =
  painted (tween_px prev nw pf nf) (pixels (length prev)) data.
Proof.
  revert m. induction fuel as [|fuel IH]; intros m Hfuel Hm.
  - simpl. f_equal. lia.
  - cbn [tween_loop].
    destruct (Nat.ltb_spec (2 * m) (length prev)) as [Hlt|Hge].
    + apply pixels_lt in Hlt.
      rewrite (store_pixel_painted_eq (tween_px prev nw pf nf) m
                 (tween_pixel prev nw pf nf (2 * m)) data eq_refl).
      replace (2 * m + 2)%nat with (2 * S m)%nat by lia.
      replace (4 * m + 4)%nat with (4 * S m)%nat by lia.
      apply IH; lia.
    + f_equal.
      destruct (Nat.lt_ge_cases m (pixels (length prev))) as [Hlt|Hge']; [|lia].
      apply pixels_lt in Hlt. lia.
Qed.

Lemma update_loop_run (depth : list byte) (data : list Z) fuel :
  (pixels (length depth) <= fuel)%nat ->
  update_loop fuel depth 0 0 data =
  painted (update_px depth) (pixels (length depth)) data.
Proof.
  intros Hfuel.
  rewrite <- (painted_0 (update_px depth) data) at 1.
  apply (update_loop_painted depth data fuel 0); lia.
Qed.

Lemma tween_loop_run (prev nw : list byte) (pf nf : float)
    (data : list Z) fuel :
  (pixels (length prev) <= fuel)%nat ->
  tween_loop fuel prev nw pf nf 0 0 data =
  painted (tween_px prev nw pf nf) (pixels (length prev)) data.
Proof.
  intros Hfuel.
  rewrite <- (painted_0 (tween_px prev nw pf nf) data) at 1.
  apply (tween_loop_painted prev nw pf nf data fuel 0); lia.
Qed.

(* ===================================================================== *)
(** ** The methods, in closed form *)
(* ===================================================================== *)

Lemma updateCanvasData_eq (this : meshFromKinect) (depth : list byte) :
  updateCanvasData this depth =
  Returned (MeshFromKinect
              (painted (update_px depth) (pixels (length depth))
                 (imageData this))
              true (prevCanvasData this) (newCanvasData this)
              (fadeCnt this) (animationFrames this)).
Proof.
  unfold updateCanvasData.
  rewrite update_loop_run by apply pixels_le. reflexivity.
Qed.

(** A blend pass over two stored arrays never throws: it paints every
    pixel of the previous frame's length, then steps the counter and either
    ends the fade or asks for another animation frame. *)
Lemma blend_pass_eq (this : meshFromKinect) (prev nw : list byte) :
  prevCanvasData this = JArray prev ->
  newCanvasData this = JArray nw ->
  blend_pass this =
  Returned (MeshFromKinect
              (painted (tween_px prev nw (prevFade (fadeCnt this))
                          (newFade (fadeCnt this)))
                 (pixels (length prev)) (imageData this))
              true (JArray prev) (JArray nw)
              (next_fadeCnt (fadeCnt this))
              (if fadeCnt this + 1 >? steps then animationFrames this
               else S (animationFrames this))).
Proof.
  intros Hp Hn. unfold blend_pass. rewrite Hp, Hn.
  rewrite tween_loop_run by apply pixels_le.
  unfold next_fadeCnt. cbn [fadeCnt set_fadeCnt set_needsUpdate set_imageData].
  destruct (fadeCnt this + 1 >? steps);
    cbv [set_fadeCnt set_needsUpdate set_imageData set_animationFrames];
    cbn [imageData needsUpdate prevCanvasData newCanvasData fadeCnt
         animationFrames];
    rewrite Hp, Hn; reflexivity.
Qed.

(** An animation frame in the middle of a fade is a blend pass. *)
Lemma animationFrame_eq (this : meshFromKinect) (prev nw : list byte) f :
  prevCanvasData this = JArray prev ->
  newCanvasData this = JArray nw ->
  fadeCnt this <> 0 ->
  animationFrames this = S f ->
  animationFrame this = Some (blend_pass (set_animationFrames f this)).
Proof.
  intros Hp Hn Hk Hf. unfold animationFrame, tweenCanvasData, tween_else.
  rewrite Hf. cbn [newCanvasData set_animationFrames fadeCnt]. rewrite Hn.
  destruct (Z.eqb_spec (fadeCnt this) 0); [contradiction|reflexivity].
Qed.

(* ===================================================================== *)
(** ** Checking a property on every sample value: lemmas *)
(* ===================================================================== *)

Lemma zrange_forallb (P : Z -> bool) n lo :
  forallb P (zrange lo n) = true ->
  forall z, lo <= z < lo + Z.of_nat n -> P z = true.
Proof.
  revert lo. induction n as [|n IH]; intros lo Hall z Hz.
  - lia.
  - cbn [zrange forallb] in Hall. apply andb_prop in Hall as [Hlo Hrest].
    destruct (Z.eq_dec z lo) as [->|Hne]; [exact Hlo|].
    apply (IH (lo + 1)); [exact Hrest|lia].
Qed.

Lemma all_in_spec (lo hi : Z) (P : Z -> bool) :
  all_in lo hi P = true -> forall z, lo <= z <= hi -> P z = true.
Proof.
  unfold all_in. intros Hall z Hz.
  apply (zrange_forallb P _ lo Hall). lia.
Qed.

Lemma feq_eq (x y : float) : feq x y = true -> x = y.
Proof. unfold feq. apply FloatAxioms.Leibniz.eqb_spec. Qed.

Lemma total_checked : all_in 0 255 total_check = true.
Proof. vm_cast_no_check (eq_refl true). Qed.

Lemma ends_checked : all_in 0 65535 ends_check = true.
Proof. vm_cast_no_check (eq_refl true). Qed.

Lemma const_blend_checked : forallb const_blend_check weights = true.
Proof. vm_cast_no_check (eq_refl true). Qed.

Lemma self_blend_checked :
  all_in 0 65535 (self_blend_check weights) = true.
Proof. vm_cast_no_check (eq_refl true). Qed.

Lemma zrange_In (n : nat) :
  forall lo z, lo <= z < lo + Z.of_nat n -> In z (zrange lo n).
Proof.
  induction n as [|n IH]; intros lo z Hz.
  - lia.
  - cbn [zrange]. destruct (Z.eq_dec z lo) as [->|Hne].
    + left. reflexivity.
    + right. apply IH. lia.
Qed.

Lemma weights_In (k : Z) :
  0 <= k <= steps -> In (k, (prevFade k, newFade k)) weights.
Proof.
  intros Hk. unfold weights.
  apply (in_map (fun k => (k, (prevFade k, newFade k)))).
  apply zrange_In. unfold steps in *. lia.
Qed.

Lemma weight_checked : all_in 0 steps weight_check = true.
Proof. vm_cast_no_check (eq_refl true). Qed.

Lemma exact_checked : all_in 0 65535 exact_check = true.
Proof. vm_cast_no_check (eq_refl true). Qed.

(** [Num.toUint8Clamp] rounds as [ToUint8Clamp] does: on the quarter points
    of [0,255], outside [0,255], on NaN, and, against the rational reading,
    on every value the encoder produces for totals up to 2048. *)
Lemma toUint8Clamp_grid : all_in 0 254 clamp_grid_check = true.
Proof. vm_cast_no_check (eq_refl true). Qed.

Lemma toUint8Clamp_outside :
  Num.toUint8Clamp nan = 0 /\
  Num.toUint8Clamp neg_infinity = 0 /\
  Num.toUint8Clamp (-0.5) = 0 /\
  Num.toUint8Clamp 255.5 = 255 /\
  Num.toUint8Clamp 1000 = 255 /\
  Num.toUint8Clamp infinity = 255.
Proof. repeat split; vm_compute; reflexivity. Qed.

Lemma toUint8Clamp_encoder : all_in 0 2048 clamp_encoder_check = true.
Proof. vm_cast_no_check (eq_refl true). Qed.

(* ===================================================================== *)
(** ** Samples *)
(* ===================================================================== *)

Lemma byteZ_range (b : byte) : 0 <= byteZ b <= 255.
Proof.
  unfold byteZ. pose proof (Byte.to_N_bounded b). lia.
Qed.

Lemma elt32_range (a : list byte) (i : nat) : 0 <= elt32 a i <= 255.
Proof.
  unfold elt32. destruct (a !! i) as [b|]; [apply byteZ_range|lia].
Qed.

Lemma toInt32_small (z : Z) :
  - 2 ^ 31 <= z < 2 ^ 31 -> Num.toInt32 z = z.
Proof.
  intros Hz. unfold Num.toInt32. rewrite Z.mod_small; lia.
Qed.

Lemma byte_total (h l : Z) :
  0 <= h <= 255 -> 0 <= l <= 255 ->
  Num.bor (Num.shl h 8) l = 256 * h + l.
Proof.
  intros Hh Hl. unfold Num.bor, Num.shl.
  change (8 mod 32) with 8.
  rewrite (toInt32_small h) by lia.
  rewrite Z.shiftl_mul_pow2 by lia. change (2 ^ 8) with 256.
  rewrite (toInt32_small (h * 256)) by lia.
  rewrite (toInt32_small (h * 256)) by lia.
  rewrite (toInt32_small l) by lia.
  pose proof (all_in_spec 0 255 total_check total_checked h Hh) as Hrow.
  pose proof (all_in_spec 0 255 _ Hrow l Hl) as Hcell.
  cbv beta in Hcell. apply Z.eqb_eq in Hcell.
  rewrite Z.shiftl_mul_pow2 in Hcell by lia. change (2 ^ 8) with 256 in Hcell.
  lia.
Qed.

(** The total of a sample is the 16-bit number its two bytes spell, low
    byte first; a missing high byte counts as 0. *)
Lemma sample_total_eq (a : list byte) (i : nat) :
  sample_total a i = 256 * elt32 a (i + 1) + elt32 a i.
Proof. unfold sample_total. apply byte_total; apply elt32_range. Qed.

Lemma sample_total_range (a : list byte) (i : nat) :
  0 <= sample_total a i <= 65535.
Proof.
  rewrite sample_total_eq.
  pose proof (elt32_range a (i + 1)). pose proof (elt32_range a i). lia.
Qed.

(** The three copies of the encoder in the script are one function. *)
Lemma tween_prev_vals_eq (t : Z) : tween_prev_vals t = update_vals t.
Proof. reflexivity. Qed.

Lemma tween_new_vals_eq (t : Z) : tween_new_vals t = update_vals t.
Proof. reflexivity. Qed.

(* ===================================================================== *)
(** ** The blend at its two ends *)
(* ===================================================================== *)

Lemma ends_facts (t : Z) (v1 v2 : float) :
  0 <= t <= 65535 -> update_vals t = (v1, v2) ->
  ((v1 * newFade 0)%float = 0%float /\ (v2 * newFade 0)%float = 0%float) /\
  ((v1 * prevFade 0 + 0)%float = v1 /\ (v2 * prevFade 0 + 0)%float = v2) /\
  ((v1 * prevFade steps)%float = 0%float /\
   (v2 * prevFade steps)%float = 0%float) /\
  ((0 + v1 * newFade steps)%float = v1 /\ (0 + v2 * newFade steps)%float = v2).
Proof.
  intros Ht Hv.
  pose proof (all_in_spec 0 65535 ends_check ends_checked t Ht) as H.
  unfold ends_check in H. rewrite Hv in H.
  repeat (apply andb_prop in H as [H ?]).
  repeat split; apply feq_eq; assumption.
Qed.

(** Step 0: the pass writes the previous frame's encoding. *)
Lemma tween_px_first (prev nw : list byte) (m : nat) :
  tween_px prev nw (prevFade 0) (newFade 0) m = update_px prev m.
Proof.
  unfold tween_px, tween_pixel, update_px, update_pixel.
  rewrite (tween_prev_vals_eq (sample_total prev (2 * m))).
  rewrite (tween_new_vals_eq (sample_total nw (2 * m))).
  destruct (update_vals (sample_total prev (2 * m))) as [p1 p2] eqn:Hp.
  destruct (update_vals (sample_total nw (2 * m))) as [n1 n2] eqn:Hn.
  destruct (ends_facts _ _ _ (sample_total_range prev (2 * m)) Hp)
    as (_ & [Hp1 Hp2] & _).
  destruct (ends_facts _ _ _ (sample_total_range nw (2 * m)) Hn)
    as ([Hn1 Hn2] & _).
  rewrite Hn1, Hn2, Hp1, Hp2. reflexivity.
Qed.

(** Step 25: the pass writes the new frame's encoding. *)
Lemma tween_px_last (prev nw : list byte) (m : nat) :
  tween_px prev nw (prevFade steps) (newFade steps) m = update_px nw m.
Proof.
  unfold tween_px, tween_pixel, update_px, update_pixel.
  rewrite (tween_prev_vals_eq (sample_total prev (2 * m))).
  rewrite (tween_new_vals_eq (sample_total nw (2 * m))).
  destruct (update_vals (sample_total prev (2 * m))) as [p1 p2] eqn:Hp.
  destruct (update_vals (sample_total nw (2 * m))) as [n1 n2] eqn:Hn.
  destruct (ends_facts _ _ _ (sample_total_range prev (2 * m)) Hp)
    as (_ & _ & [Hp1 Hp2] & _).
  destruct (ends_facts _ _ _ (sample_total_range nw (2 * m)) Hn)
    as (_ & _ & _ & [Hn1 Hn2]).
  rewrite Hp1, Hp2, Hn1, Hn2. reflexivity.
Qed.

(* ===================================================================== *)
(** ** The fade, frame after frame *)
(* ===================================================================== *)

Lemma next_fadeCnt_below (k : Z) : k + 1 <= steps -> next_fadeCnt k = k + 1.
Proof.
  intros Hk. unfold next_fadeCnt.
  destruct (Z.gtb_spec (k + 1) steps); [lia|reflexivity].
Qed.

Lemma next_fadeCnt_range (k : Z) :
  0 <= k <= steps -> 0 <= next_fadeCnt k <= steps.
Proof.
  intros Hk. unfold next_fadeCnt.
  destruct (Z.gtb_spec (k + 1) steps); unfold steps in *; lia.
Qed.

(** [S n] animation frames from step [k >= 1], all inside one fade: the
    store holds the pass of step [k + n], painted over what was there. *)
Lemma animate_fade (n : nat) :
  forall (this : meshFromKinect) (prev nw : list byte) (f : nat),
    prevCanvasData this = JArray prev ->
    newCanvasData this = JArray nw ->
    1 <= fadeCnt this ->
    fadeCnt this + Z.of_nat n <= steps ->
    animationFrames this = S f ->
    animate (S n) this =
    Some (Returned
            (MeshFromKinect
               (painted (tween_px prev nw
                           (prevFade (fadeCnt this + Z.of_nat n))
                           (newFade (fadeCnt this + Z.of_nat n)))
                  (pixels (length prev)) (imageData this))
               true (JArray prev) (JArray nw)
               (next_fadeCnt (fadeCnt this + Z.of_nat n))
               (if fadeCnt this + Z.of_nat n + 1 >? steps then f else S f))).
Proof.
  induction n as [|n IH]; intros this prev nw f Hp Hn Hk Hle Hf.
  - cbn [animate].
    rewrite (animationFrame_eq this prev nw f Hp Hn) by (assumption || lia).
    rewrite (blend_pass_eq _ prev nw) by assumption.
    cbn [animate fadeCnt imageData animationFrames set_animationFrames].
    rewrite Z.add_0_r. reflexivity.
  - change (animate (S (S n)) this) with
      (match animationFrame this with
       | Some (Returned this') => animate (S n) this'
       | Some (Threw e this') => Some (Threw e this')
       | None => None
       end).
    rewrite (animationFrame_eq this prev nw f Hp Hn) by (assumption || lia).
    rewrite (blend_pass_eq _ prev nw) by assumption.
    cbn [fadeCnt imageData animationFrames set_animationFrames].
    assert (Hstep : fadeCnt this + 1 <= steps) by lia.
    rewrite (next_fadeCnt_below _ Hstep).
    destruct (Z.gtb_spec (fadeCnt this + 1) steps) as [Hgt|_]; [lia|].
    rewrite (IH _ prev nw f) by (cbn [prevCanvasData newCanvasData fadeCnt
                                      animationFrames]; (reflexivity || lia)).
    cbn [fadeCnt imageData].
    rewrite painted_painted.
    replace (fadeCnt this + 1 + Z.of_nat n)
      with (fadeCnt this + Z.of_nat (S n)) by lia.
    reflexivity.
Qed.

(** A submitted frame when the counter is 0: the stored frame becomes the
    previous one and the first pass, of weight 0, runs at once. *)
Lemma tween_else_idle (this : meshFromKinect) (prev nw : list byte) :
  newCanvasData this = JArray prev ->
  fadeCnt this = 0 ->
  tween_else this (JArray nw) =
  Returned (MeshFromKinect
              (painted (update_px prev) (pixels (length prev))
                 (imageData this))
              true (JArray prev) (JArray nw) 1
              (S (animationFrames this))).
Proof.
  intros Hn Hk. unfold tween_else. rewrite Hk. cbn [Z.eqb].
  rewrite (blend_pass_eq _ prev nw)
    by (cbn [prevCanvasData newCanvasData set_newCanvasData
             set_prevCanvasData]; (assumption || reflexivity)).
  cbn [fadeCnt imageData animationFrames set_newCanvasData set_prevCanvasData].
  rewrite Hk.
  rewrite (painted_ext _ (update_px prev))
    by (intros; rewrite tween_px_first; reflexivity).
  reflexivity.
Qed.

(* ===================================================================== *)
(** ** What holds of every reachable object *)
(* ===================================================================== *)

Lemma blend_pass_cases (this : meshFromKinect) :
  (exists e, blend_pass this = Threw e this) \/
  (exists prev data frames,
     prevCanvasData this = JArray prev /\
     blend_pass this =
     Returned (MeshFromKinect data true (prevCanvasData this)
                 (newCanvasData this) (next_fadeCnt (fadeCnt this)) frames)).
Proof.
  unfold blend_pass.
  destruct (prevCanvasData this) as [| |prev] eqn:Hp;
    [left; eexists; reflexivity .. |].
  assert (Hfin : forall data,
    exists frames,
      (let this0 := set_needsUpdate true (set_imageData data this) in
       let this1 := set_fadeCnt (fadeCnt this0 + 1) this0 in
       if fadeCnt this1 >? steps then Returned (set_fadeCnt 0 this1)
       else Returned (set_animationFrames (S (animationFrames this1)) this1)) =
      Returned (MeshFromKinect data true (JArray prev) (newCanvasData this)
                  (next_fadeCnt (fadeCnt this)) frames)).
  { intros data. unfold next_fadeCnt.
    cbn [fadeCnt set_fadeCnt set_needsUpdate set_imageData].
    destruct (fadeCnt this + 1 >? steps); eexists;
      cbv [set_fadeCnt set_needsUpdate set_imageData set_animationFrames];
      cbn [imageData needsUpdate prevCanvasData newCanvasData fadeCnt
           animationFrames];
      rewrite Hp; reflexivity. }
  destruct (newCanvasData this) as [| |nw] eqn:Hn.
  - destruct (0 <? length prev)%nat.
    + left; eexists; reflexivity.
    + right. destruct (Hfin (imageData this)) as [frames Hfr].
      exists prev, (imageData this), frames. split; [reflexivity|exact Hfr].
  - destruct (0 <? length prev)%nat.
    + left; eexists; reflexivity.
    + right. destruct (Hfin (imageData this)) as [frames Hfr].
      exists prev, (imageData this), frames. split; [reflexivity|exact Hfr].
  - right.
    destruct (Hfin (tween_loop (length prev) prev nw
                      (prevFade (fadeCnt this)) (newFade (fadeCnt this))
                      0 0 (imageData this))) as [frames Hfr].
    eexists prev, _, frames. split; [reflexivity|exact Hfr].
Qed.

Lemma blend_pass_invariant (this : meshFromKinect) :
  invariant this -> newCanvasData this <> JNull ->
  invariant (object_of (blend_pass this)).
Proof.
  intros Hinv Hnew. pose proof Hinv as (Hrange & Hnull & Hprev).
  destruct (blend_pass_cases this)
    as [[e He]|(prev & data & frames & Hp & Hr)].
  - rewrite He. cbn [object_of]. exact Hinv.
  - rewrite Hr. cbn [object_of]. unfold invariant.
    cbn [fadeCnt newCanvasData prevCanvasData].
    split; [apply next_fadeCnt_range; exact Hrange|].
    split; [intros Habs; contradiction|].
    intros _. exists prev. exact Hp.
Qed.

Lemma arg_not_null (depth : option (list byte)) : arg depth <> JNull.
Proof. destruct depth; discriminate. Qed.

Lemma tween_else_invariant (this : meshFromKinect) (v : jsval) :
  invariant this -> newCanvasData this <> JNull -> v <> JNull ->
  invariant (object_of (tween_else this v)).
Proof.
  intros Hinv Hnew Hv. unfold tween_else.
  destruct (Z.eqb_spec (fadeCnt this) 0) as [Hk|Hk].
  - apply blend_pass_invariant.
    + unfold invariant.
      cbn [fadeCnt newCanvasData prevCanvasData set_newCanvasData
           set_prevCanvasData].
      rewrite Hk. unfold steps.
      split; [lia|]. split; [reflexivity|]. intros Habs. contradiction.
    + cbn [newCanvasData set_newCanvasData]. exact Hv.
  - apply blend_pass_invariant; assumption.
Qed.

Lemma tweenCanvasData_invariant (this : meshFromKinect)
    (depth : option (list byte)) :
  invariant this -> invariant (object_of (tweenCanvasData this depth)).
Proof.
  intros Hinv. unfold tweenCanvasData.
  destruct (newCanvasData this) as [| |a] eqn:Hn.
  - apply tween_else_invariant.
    + destruct Hinv as (Hrange & Hnull & Hprev).
      unfold invariant.
      cbn [fadeCnt newCanvasData prevCanvasData set_newCanvasData].
      split; [exact Hrange|]. split; [|exact Hprev].
      intros _. apply Hnull. exact Hn.
    + cbn [newCanvasData set_newCanvasData]. apply arg_not_null.
    + apply arg_not_null.
  - apply tween_else_invariant;
      [exact Hinv | rewrite Hn; discriminate | apply arg_not_null].
  - apply tween_else_invariant;
      [exact Hinv | rewrite Hn; discriminate | apply arg_not_null].
Qed.

Lemma reachable_invariant (this : meshFromKinect) :
  reachable this -> invariant this.
Proof.
  induction 1 as [initDepth|this c r Hreach IH Hperf].
  - destruct initDepth as [a|]; cbn [construct].
    + apply tweenCanvasData_invariant. unfold invariant, steps.
      cbn [fadeCnt newCanvasData prevCanvasData].
      split; [lia|]. split; [reflexivity|]. intros Habs. contradiction.
    + cbn [object_of]. unfold invariant, steps.
      cbn [fadeCnt newCanvasData prevCanvasData].
      split; [lia|]. split; [reflexivity|]. intros Habs. contradiction.
  - destruct c as [depth|depth|]; cbn [perform] in Hperf.
    + injection Hperf as <-. rewrite updateCanvasData_eq. exact IH.
    + injection Hperf as <-. apply tweenCanvasData_invariant. exact IH.
    + unfold animationFrame in Hperf.
      destruct (animationFrames this) as [|n]; [discriminate|].
      injection Hperf as <-. apply tweenCanvasData_invariant. exact IH.
Qed.

(* ===================================================================== *)
(** ** Exact values of the encoder *)
(* ===================================================================== *)

Lemma has_value_is (x : float) (q : Q) : has_value x q = true -> value_is x q.
Proof.
  unfold has_value, value_is. destruct (Num.exact x) as [q'|]; [|discriminate].
  intros H. exists q'. split; [reflexivity|]. apply Qeq_bool_iff. exact H.
Qed.

Lemma update_vals_le (t : Z) :
  t <= 1024 ->
  update_vals t = (MathUtils.map (Num.of_Z t) 0 1024 255 0, 255%float).
Proof.
  intros Ht. unfold update_vals.
  destruct (Z.gtb_spec t 1024); [lia|reflexivity].
Qed.

Lemma update_vals_gt (t : Z) :
  1024 < t ->
  update_vals t =
  (0%float, MathUtils.map (Num.of_Z (2048 - t)) 0 1024 255 0).
Proof.
  intros Ht. unfold update_vals.
  destruct (Z.gtb_spec t 1024); [reflexivity|lia].
Qed.

(** On every sample the double-precision remap is exact: the encoder's
    Numbers are the rationals the remap formula denotes. *)
Lemma exact_facts (t : Z) :
  0 <= t <= 65535 ->
  (t <= 1024 ->
   value_is (fst (update_vals t))
     (mapQ (inject_Z t) 0 (inject_Z 1024) (inject_Z 255) 0) /\
   value_is (snd (update_vals t)) (inject_Z 255)) /\
  (1024 < t ->
   value_is (fst (update_vals t)) 0 /\
   value_is (snd (update_vals t))
     (mapQ (inject_Z (2048 - t)) 0 (inject_Z 1024) (inject_Z 255) 0)).
Proof.
  intros Ht.
  pose proof (all_in_spec 0 65535 exact_check exact_checked t Ht) as H.
  unfold exact_check, varying in H.
  split; intros Hc.
  - rewrite (update_vals_le t Hc) in *. cbn [fst snd].
    destruct (Z.gtb_spec t 1024); [lia|].
    split; apply has_value_is; [exact H|vm_compute; reflexivity].
  - rewrite (update_vals_gt t Hc) in *. cbn [fst snd].
    destruct (Z.gtb_spec t 1024); [|lia].
    split; apply has_value_is; [vm_compute; reflexivity|exact H].
Qed.

Lemma mapQ_high (t : Z) :
  (mapQ (inject_Z (2048 - t)) 0 (inject_Z 1024) (inject_Z 255) 0 ==
   inject_Z 255 * inject_Z (t - 1024) / inject_Z 1024)%Q.
Proof.
  unfold mapQ. unfold Z.sub. rewrite !inject_Z_plus, !inject_Z_opp.
  change (inject_Z 2048) with (2048 # 1)%Q.
  change (inject_Z 1024) with (1024 # 1)%Q.
  change (inject_Z 255) with (255 # 1)%Q.
  field.
Qed.

(* ===================================================================== *)
(** ** The encoder *)
(* ===================================================================== *)

Lemma encode_total (total : Z) :
  0 <= total <= 65535 ->
  (total <= 1024 ->
   fst (update_vals total) = MathUtils.map (Num.of_Z total) 0 1024 255 0 /\
   snd (update_vals total) = 255%float /\
   value_is (fst (update_vals total))
     (mapQ (inject_Z total) 0 (inject_Z 1024) (inject_Z 255) 0)) /\
  (1024 < total ->
   fst (update_vals total) = 0%float /\
   snd (update_vals total) =
     MathUtils.map (Num.of_Z (2048 - total)) 0 1024 255 0 /\
   value_is (snd (update_vals total))
     (mapQ (inject_Z (2048 - total)) 0 (inject_Z 1024) (inject_Z 255) 0)).
Proof.
  intros Hrange.
  pose proof (exact_facts _ Hrange) as [Hle Hgt].
  split.
  - intros Ht. destruct (Hle Ht) as [Hlow _].
    rewrite (update_vals_le _ Ht) in *. cbn [fst snd] in *.
    split; [reflexivity|]. split; [reflexivity|exact Hlow].
  - intros Ht. destruct (Hgt Ht) as [_ Hhigh].
    rewrite (update_vals_gt _ Ht) in *. cbn [fst snd] in *.
    split; [reflexivity|]. split; [reflexivity|exact Hhigh].
Qed.

Lemma encode_zero :
  update_vals (sample_total [x00; x00] 0) = (255%float, 255%float).
Proof. vm_compute. reflexivity. Qed.

(** C1.  For the sample at [i] of any frame, with
    [total = a[i+1] << 8 | a[i]]: when [total <= 1024] the encoder yields
    [low = map(total, 0, 1024, 255, 0)] and [high = 255]; when
    [total > 1024] it yields [low = 0] and
    [high = map(2048 - total, 0, 1024, 255, 0)].  [map] is the linear remap
    [outMin + (value - inMin) * (outMax - outMin) / (inMax - inMin)] and
    nothing clamps it: the Numbers produced have exactly the rational values
    of that formula, above 255 included.  The pixel assigned is
    [(low, high, high, 255)].  The two copies of the encoder in
    [tweenCanvasData] compute the same pair, and the sample (0,0) encodes
    to (255, 255). *)
Theorem C1_encode_sample (a : list byte) (i : nat) :
  sample_total a i = 256 * elt32 a (i + 1) + elt32 a i /\
  (sample_total a i <= 1024 ->
   fst (update_vals (sample_total a i)) =
     MathUtils.map (Num.of_Z (sample_total a i)) 0 1024 255 0 /\
   snd (update_vals (sample_total a i)) = 255%float /\
   value_is (fst (update_vals (sample_total a i)))
     (mapQ (inject_Z (sample_total a i)) 0 (inject_Z 1024)
        (inject_Z 255) 0)) /\
  (1024 < sample_total a i ->
   fst (update_vals (sample_total a i)) = 0%float /\
   snd (update_vals (sample_total a i)) =
     MathUtils.map (Num.of_Z (2048 - sample_total a i)) 0 1024 255 0 /\
   value_is (snd (update_vals (sample_total a i)))
     (mapQ (inject_Z (2048 - sample_total a i)) 0 (inject_Z 1024)
        (inject_Z 255) 0)) /\
  update_pixel a i =
    (fst (update_vals (sample_total a i)),
     snd (update_vals (sample_total a i)),
     snd (update_vals (sample_total a i)), 255%float) /\
  tween_prev_vals (sample_total a i) = update_vals (sample_total a i) /\
  tween_new_vals (sample_total a i) = update_vals (sample_total a i) /\
  (forall value inMin inMax outMin outMax,
     MathUtils.map value inMin inMax outMin outMax =
     (outMin + (value - inMin) * (outMax - outMin) / (inMax - inMin))%float) /\
  update_vals (sample_total [x00; x00] 0) = (255%float, 255%float).
Proof.
  pose proof (encode_total _ (sample_total_range a i)) as [Hle Hgt].
  split; [apply sample_total_eq|].
  split; [exact Hle|]. split; [exact Hgt|].
  split.
  { unfold update_pixel.
    destruct (update_vals (sample_total a i)) as [val1 val2]. reflexivity. }
  split; [apply tween_prev_vals_eq|]. split; [apply tween_new_vals_eq|].
  split; [intros; reflexivity|].
  apply encode_zero.
Qed.

(** C9.  In exact rational arithmetic the high channel jumps at the split
    threshold: for [1024 < total <= 2048] it is
    [255 * (total - 1024) / 1024], strictly increasing in [total]; up to
    1024 it is the constant 255.  So total 1024 gives 255 and total 1025
    gives 255/1024. *)
Theorem C9_high_channel_jump :
  (forall total, 1024 < total <= 2048 ->
     snd (update_vals total) =
       MathUtils.map (Num.of_Z (2048 - total)) 0 1024 255 0 /\
     value_is (snd (update_vals total))
       (inject_Z 255 * inject_Z (total - 1024) / inject_Z 1024)) /\
  (forall t1 t2, 1024 < t1 -> t1 < t2 -> t2 <= 2048 ->
     exists q1 q2,
       Num.exact (snd (update_vals t1)) = Some q1 /\
       Num.exact (snd (update_vals t2)) = Some q2 /\
       (q1 < q2)%Q) /\
  (forall total, 0 <= total <= 1024 ->
     snd (update_vals total) = 255%float) /\
  value_is (snd (update_vals 1024)) (255 # 1) /\
  value_is (snd (update_vals 1025)) (255 # 1024).
Proof.
  assert (Hval : forall total, 1024 < total <= 2048 ->
            value_is (snd (update_vals total))
              (inject_Z 255 * inject_Z (total - 1024) / inject_Z 1024)).
  { intros total Ht.
    assert (Hrange : 0 <= total <= 65535) by lia.
    destruct (exact_facts total Hrange) as [_ Hgt].
    destruct Hgt as [_ (q & Hq & Heq)]; [lia|].
    exists q. split; [exact Hq|]. rewrite Heq. apply mapQ_high. }
  split.
  { intros total Ht. split; [|apply Hval; exact Ht].
    rewrite update_vals_gt by lia. reflexivity. }
  split.
  { intros t1 t2 H1 H12 H2.
    destruct (Hval t1) as (q1 & Hq1 & He1); [lia|].
    destruct (Hval t2) as (q2 & Hq2 & He2); [lia|].
    exists q1, q2. split; [exact Hq1|]. split; [exact Hq2|].
    rewrite He1, He2.
    unfold Qlt, Qdiv, Qmult, Qinv, inject_Z. cbn [Qnum Qden]. lia. }
  split.
  { intros total Ht. rewrite update_vals_le by lia. reflexivity. }
  split.
  - apply has_value_is. vm_compute. reflexivity.
  - apply has_value_is. vm_compute. reflexivity.
Qed.

(* ===================================================================== *)
(** ** Submitting a frame *)
(* ===================================================================== *)

(** Whatever the argument, [tweenCanvasData] ends in one blend pass, run at
    the step the counter had on entry. *)
Lemma tweenCanvasData_pass (this : meshFromKinect)
    (depth : option (list byte)) :
  exists this', tweenCanvasData this depth = blend_pass this' /\
                fadeCnt this' = fadeCnt this.
Proof.
  unfold tweenCanvasData, tween_else.
  destruct (newCanvasData this);
    cbn [fadeCnt set_newCanvasData];
    destruct (fadeCnt this =? 0); eexists; split; reflexivity.
Qed.

Lemma tweenCanvasData_fadeCnt (this this' : meshFromKinect)
    (depth : option (list byte)) :
  tweenCanvasData this depth = Returned this' ->
  fadeCnt this' = next_fadeCnt (fadeCnt this).
Proof.
  destruct (tweenCanvasData_pass this depth) as (this0 & -> & Hk).
  destruct (blend_pass_cases this0)
    as [[e He]|(prev & data & frames & _ & Hr)]; rewrite ?He, ?Hr.
  - discriminate.
  - intros [= <-]. cbn [fadeCnt]. rewrite Hk. reflexivity.
Qed.

Lemma tweenCanvasData_threw (this this' : meshFromKinect) (e : error)
    (depth : option (list byte)) :
  tweenCanvasData this depth = Threw e this' ->
  fadeCnt this' = fadeCnt this.
Proof.
  destruct (tweenCanvasData_pass this depth) as (this0 & -> & Hk).
  destruct (blend_pass_cases this0)
    as [[e0 He]|(prev & data & frames & _ & Hr)]; rewrite ?He, ?Hr.
  - intros [= _ <-]. exact Hk.
  - discriminate.
Qed.

(** In the middle of a fade the argument is not looked at. *)
Lemma tweenCanvasData_midfade (this : meshFromKinect) (nw : list byte)
    (depth : option (list byte)) :
  newCanvasData this = JArray nw -> fadeCnt this <> 0 ->
  tweenCanvasData this depth = blend_pass this.
Proof.
  intros Hn Hk. unfold tweenCanvasData, tween_else. rewrite Hn.
  destruct (Z.eqb_spec (fadeCnt this) 0); [contradiction|reflexivity].
Qed.

Lemma constructed_eq (a : list byte) :
  constructed a =
  MeshFromKinect
    (painted (update_px a) (pixels (length a)) (replicate canvas_bytes 0))
    true (JArray a) (JArray a) 1 1.
Proof.
  unfold constructed, construct, tweenCanvasData.
  cbn [newCanvasData arg].
  rewrite (tween_else_idle _ a a) by reflexivity.
  reflexivity.
Qed.

(** C2, as the script has it.  A frame submitted in the middle of a fade
    (counter not 0, a current frame stored) is dropped: the call is the
    blend pass an animation frame would have run, the current and the
    previous frame stay what they were, and the counter is not reset by
    the submission: it takes the pass's one step (back to 0 after 25). *)
Theorem C2_midfade_submit_dropped (this : meshFromKinect)
    (cur depth : list byte) :
  reachable this ->
  fadeCnt this <> 0 ->
  newCanvasData this = JArray cur ->
  exists prev this',
    prevCanvasData this = JArray prev /\
    tweenCanvasData this (Some depth) = Returned this' /\
    tweenCanvasData this (Some depth) = tweenCanvasData this None /\
    newCanvasData this' = JArray cur /\
    prevCanvasData this' = JArray prev /\
    fadeCnt this' = next_fadeCnt (fadeCnt this).
Proof.
  intros Hreach Hk Hn.
  destruct (reachable_invariant this Hreach) as (_ & _ & Hprev).
  destruct (Hprev Hk) as [prev Hp].
  exists prev. eexists.
  split; [exact Hp|].
  rewrite !(tweenCanvasData_midfade this cur) by assumption.
  rewrite (blend_pass_eq this prev cur Hp Hn).
  repeat split; reflexivity.
Qed.

Lemma C2_witness :
  exists prev this',
    prevCanvasData (constructed [x00; x00]) = JArray prev /\
    tweenCanvasData (constructed [x00; x00]) (Some [x00; x08])
      = Returned this' /\
    tweenCanvasData (constructed [x00; x00]) (Some [x00; x08])
      = tweenCanvasData (constructed [x00; x00]) None /\
    newCanvasData this' = JArray [x00; x00] /\
    prevCanvasData this' = JArray prev /\
    fadeCnt this' = next_fadeCnt (fadeCnt (constructed [x00; x00])).
Proof.
  apply (C2_midfade_submit_dropped (constructed [x00; x00])
           [x00; x00] [x00; x08]).
  - apply reachable_construct.
  - rewrite constructed_eq. cbn [fadeCnt]. lia.
  - rewrite constructed_eq. reflexivity.
Defined.

(** C2 as the spec words it fails.  Right after construction with
    [initDepth] of total 0 the first fade is at step 1, its current frame
    stored; a frame of total 2 submitted then does not become the current
    frame. *)
Lemma C2_counterexample :
  reachable (constructed [x00; x00]) /\
  fadeCnt (constructed [x00; x00]) = 1 /\
  newCanvasData (constructed [x00; x00]) = JArray [x00; x00] /\
  newCanvasData
    (object_of (tweenCanvasData (constructed [x00; x00]) (Some [x02; x00])))
  = JArray [x00; x00] /\
  newCanvasData
    (object_of (tweenCanvasData (constructed [x00; x00]) (Some [x02; x00])))
  <> JArray [x02; x00].
Proof.
  split; [apply reachable_construct|].
  assert (Hnew :
    newCanvasData
      (object_of (tweenCanvasData (constructed [x00; x00])
                    (Some [x02; x00])))
    = JArray [x00; x00]).
  { rewrite constructed_eq.
    rewrite (tweenCanvasData_midfade _ [x00; x00])
      by (cbn [newCanvasData fadeCnt]; (reflexivity || lia)).
    rewrite (blend_pass_eq _ [x00; x00] [x00; x00]) by reflexivity.
    reflexivity. }
  rewrite Hnew, constructed_eq. cbn [fadeCnt newCanvasData].
  split; [reflexivity|]. split; [reflexivity|].
  split; [reflexivity|]. discriminate.
Qed.

(* ===================================================================== *)
(** ** A whole fade *)
(* ===================================================================== *)

Lemma submit_idle (this : meshFromKinect) (prev nw : list byte) :
  newCanvasData this = JArray prev ->
  fadeCnt this = 0 ->
  tweenCanvasData this (Some nw) =
  Returned (MeshFromKinect
              (painted (update_px prev) (pixels (length prev))
                 (imageData this))
              true (JArray prev) (JArray nw) 1
              (S (animationFrames this))).
Proof.
  intros Hn Hk. unfold tweenCanvasData. rewrite Hn. cbn [arg].
  apply tween_else_idle; assumption.
Qed.

(** C3, as the script has it.  From a counter at 0, a submitted frame of
    the stored frame's length starts a fade of 26 blend passes, at steps
    0 to 25: the pass the submitting call runs itself, then 25 animation
    frames.  After the 26th the pixel store is byte for byte what
    [updateCanvasData] writes for the new frame, the weights of that pass
    being 0 and 1, and the counter is back at 0. *)
Theorem C3_fade_completes (this : meshFromKinect) (prev nw : list byte) :
  newCanvasData this = JArray prev ->
  fadeCnt this = 0 ->
  length nw = length prev ->
  exists this1 this2,
    tweenCanvasData this (Some nw) = Returned this1 /\
    animate 25 this1 = Some (Returned this2) /\
    imageData this2 = imageData (object_of (updateCanvasData this nw)) /\
    prevCanvasData this2 = JArray prev /\
    newCanvasData this2 = JArray nw /\
    fadeCnt this2 = 0 /\
    animationFrames this2 = animationFrames this /\
    prevFade steps = 0%float /\ newFade steps = 1%float.
Proof.
  intros Hn Hk Hlen.
  eexists. eexists.
  split; [apply (submit_idle this prev nw Hn Hk)|].
  split.
  { apply (animate_fade 24 _ prev nw (animationFrames this));
      cbn [prevCanvasData newCanvasData fadeCnt animationFrames];
      unfold steps; (reflexivity || lia). }
  cbn [imageData prevCanvasData newCanvasData fadeCnt animationFrames].
  change (1 + Z.of_nat 24) with steps.
  rewrite updateCanvasData_eq. cbn [object_of imageData].
  rewrite painted_painted.
  rewrite (painted_ext _ (update_px nw))
    by (intros; rewrite tween_px_last; reflexivity).
  rewrite Hlen.
  split; [reflexivity|]. split; [reflexivity|]. split; [reflexivity|].
  split; [vm_compute; reflexivity|]. split; [vm_compute; reflexivity|].
  split; vm_compute; reflexivity.
Qed.

Lemma C3_witness :
  exists this1 this2,
    tweenCanvasData (idle 1 [x00; x00]) (Some [x00; x08]) = Returned this1 /\
    animate 25 this1 = Some (Returned this2) /\
    imageData this2 =
      imageData (object_of (updateCanvasData (idle 1 [x00; x00])
                              [x00; x08])) /\
    prevCanvasData this2 = JArray [x00; x00] /\
    newCanvasData this2 = JArray [x00; x08] /\
    fadeCnt this2 = 0 /\
    animationFrames this2 = animationFrames (idle 1 [x00; x00]) /\
    prevFade steps = 0%float /\ newFade steps = 1%float.
Proof.
  apply (C3_fade_completes (idle 1 [x00; x00]) [x00; x00] [x00; x08]);
    reflexivity.
Defined.

(** C3 as the spec words it fails: after 25 blend passes (the submitting
    call and 24 animation frames) the last weights used are 1/25 and 24/25;
    fading from total 0 to total 2048 the red byte is then 10, where
    [updateCanvasData] of the new frame writes 0, and the counter stands at
    25, the fade not yet over. *)
Lemma C3_counterexample :
  exists this1 this2,
    tweenCanvasData (idle 1 [x00; x00]) (Some [x00; x08]) = Returned this1 /\
    animate 24 this1 = Some (Returned this2) /\
    fadeCnt this2 = 25 /\
    imageData this2 = [10; 255; 255; 255] /\
    imageData (object_of (updateCanvasData (idle 1 [x00; x00]) [x00; x08]))
      = [0; 255; 255; 255] /\
    imageData this2 <>
      imageData (object_of (updateCanvasData (idle 1 [x00; x00])
                              [x00; x08])).
Proof.
  eexists. eexists.
  split; [vm_compute; reflexivity|].
  split; [vm_compute; reflexivity|].
  cbn [fadeCnt imageData].
  split; [reflexivity|]. split; [reflexivity|].
  split; [vm_compute; reflexivity|].
  vm_compute. discriminate.
Qed.

(** C8.  On an object that holds no frame yet, the first
    [tweenCanvasData(depth)] stores [depth] as both frames and runs the
    first pass at once; the pixel store it leaves is byte for byte the one
    [updateCanvasData(depth)] leaves, for a frame of any length. *)
Theorem C8_first_frame (this : meshFromKinect) (depth : list byte) :
  reachable this ->
  newCanvasData this = JNull ->
  exists this',
    tweenCanvasData this (Some depth) = Returned this' /\
    imageData this' = imageData (object_of (updateCanvasData this depth)) /\
    prevCanvasData this' = JArray depth /\
    newCanvasData this' = JArray depth /\
    fadeCnt this' = 1.
Proof.
  intros Hreach Hn.
  destruct (reachable_invariant this Hreach) as (_ & Hnull & _).
  pose proof (Hnull Hn) as Hk.
  eexists. split.
  { unfold tweenCanvasData. rewrite Hn. cbn [arg].
    apply (tween_else_idle _ depth depth);
      cbn [newCanvasData fadeCnt set_newCanvasData]; [reflexivity|exact Hk]. }
  rewrite updateCanvasData_eq.
  cbn [object_of imageData prevCanvasData newCanvasData fadeCnt
       set_newCanvasData].
  repeat split; reflexivity.
Qed.

Lemma C8_witness :
  exists this',
    tweenCanvasData (object_of (construct None)) (Some [x00; x08])
      = Returned this' /\
    imageData this' =
      imageData (object_of (updateCanvasData (object_of (construct None))
                              [x00; x08])) /\
    prevCanvasData this' = JArray [x00; x08] /\
    newCanvasData this' = JArray [x00; x08] /\
    fadeCnt this' = 1.
Proof.
  apply (C8_first_frame (object_of (construct None)) [x00; x08]).
  - apply reachable_construct.
  - reflexivity.
Defined.

(* ===================================================================== *)
(** ** The step counter *)
(* ===================================================================== *)

Lemma weights_in_range (k : Z) :
  0 <= k <= steps ->
  (0 <=? newFade k)%float = true /\ (newFade k <=? 1)%float = true /\
  (0 <=? prevFade k)%float = true /\ (prevFade k <=? 1)%float = true.
Proof.
  intros Hk.
  pose proof (all_in_spec 0 steps weight_check weight_checked k Hk) as H.
  unfold weight_check in H.
  repeat (apply andb_prop in H as [H ?]).
  repeat split; assumption.
Qed.

(** C7.  On every reachable object the counter [fadeCnt] is an integer in
    [0, 25].  A call of [tweenCanvasData] that returns has stepped it by
    one, or put it back to 0 when the step went past 25; a call that
    throws, and [updateCanvasData], leave it alone.  The divisor of the
    weights is the constant 25, and both weights of the next pass lie in
    [0, 1]. *)
Theorem C7_step_counter (this : meshFromKinect) :
  reachable this ->
  0 <= fadeCnt this <= steps /\
  (forall c r, perform this c = Some r ->
     0 <= fadeCnt (object_of r) <= steps) /\
  (forall depth this',
     tweenCanvasData this depth = Returned this' ->
     fadeCnt this' =
       if fadeCnt this + 1 >? steps then 0 else fadeCnt this + 1) /\
  (forall depth e this',
     tweenCanvasData this depth = Threw e this' ->
     fadeCnt this' = fadeCnt this) /\
  (forall depth,
     fadeCnt (object_of (updateCanvasData this depth)) = fadeCnt this) /\
  Num.of_Z steps = 25%float /\
  (0 <=? newFade (fadeCnt this))%float = true /\
  (newFade (fadeCnt this) <=? 1)%float = true /\
  (0 <=? prevFade (fadeCnt this))%float = true /\
  (prevFade (fadeCnt this) <=? 1)%float = true.
Proof.
  intros Hreach.
  destruct (reachable_invariant this Hreach) as (Hrange & _ & _).
  split; [exact Hrange|].
  split.
  { intros c r Hperf.
    apply (reachable_invariant (object_of r)).
    apply (reachable_perform this c r Hreach Hperf). }
  split; [intros depth this' Hr; apply (tweenCanvasData_fadeCnt _ _ _ Hr)|].
  split; [intros depth e this' Hr; apply (tweenCanvasData_threw _ _ _ _ Hr)|].
  split; [intros depth; rewrite updateCanvasData_eq; reflexivity|].
  split; [vm_compute; reflexivity|].
  apply weights_in_range. exact Hrange.
Qed.

Lemma C7_witness :
  0 <= fadeCnt (constructed [x00; x08]) <= steps /\
  (forall c r, perform (constructed [x00; x08]) c = Some r ->
     0 <= fadeCnt (object_of r) <= steps) /\
  (forall depth this',
     tweenCanvasData (constructed [x00; x08]) depth = Returned this' ->
     fadeCnt this' =
       if fadeCnt (constructed [x00; x08]) + 1 >? steps then 0
       else fadeCnt (constructed [x00; x08]) + 1) /\
  (forall depth e this',
     tweenCanvasData (constructed [x00; x08]) depth = Threw e this' ->
     fadeCnt this' = fadeCnt (constructed [x00; x08])) /\
  (forall depth,
     fadeCnt (object_of (updateCanvasData (constructed [x00; x08]) depth))
     = fadeCnt (constructed [x00; x08])) /\
  Num.of_Z steps = 25%float /\
  (0 <=? newFade (fadeCnt (constructed [x00; x08])))%float = true /\
  (newFade (fadeCnt (constructed [x00; x08])) <=? 1)%float = true /\
  (0 <=? prevFade (fadeCnt (constructed [x00; x08])))%float = true /\
  (prevFade (fadeCnt (constructed [x00; x08])) <=? 1)%float = true.
Proof.
  apply (C7_step_counter (constructed [x00; x08])).
  apply reachable_construct.
Defined.

(* ===================================================================== *)
(** ** One blend pass, pixel by pixel *)
(* ===================================================================== *)

Lemma lookup_painted_pixel (px : nat -> pixel) (n : nat) (data : list Z)
    (m ch : nat) :
  (m < n)%nat -> (ch < 4)%nat -> (4 * m + ch < length data)%nat ->
  painted px n data !! (4 * m + ch)%nat =
  Some (Num.toUint8Clamp (channel (px m) ch)).
Proof.
  intros Hm Hch Hlen. rewrite lookup_painted.
  destruct (lookup_lt_is_Some_2 data (4 * m + ch) Hlen) as [old ->].
  cbv [fmap option_fmap option_map].
  destruct (Nat.ltb_spec (4 * m + ch) (4 * n)); [|lia].
  replace ((4 * m + ch) / 4)%nat with m
    by (apply (Nat.div_unique _ 4 m ch); lia).
  replace ((4 * m + ch) mod 4)%nat with ch
    by (apply (Nat.mod_unique _ 4 m ch); lia).
  reflexivity.
Qed.

(** C4.  A blend pass at step [k] over two stored frames assigns, for the
    sample at [2m], the Numbers
    [prevChannel * (1 - k/25) + newChannel * (k/25)] to the three colour
    channels, [prevChannel] and [newChannel] being the encodings of that
    sample of the previous and of the new frame, and the Number 255 to
    alpha; the pixel store holds their [ToUint8Clamp] conversions.  [k] is
    the counter as the pass found it: the step to [k + 1] comes after. *)
Theorem C4_blend_linearity (this : meshFromKinect) (prev nw : list byte) :
  prevCanvasData this = JArray prev ->
  newCanvasData this = JArray nw ->
  exists this',
    blend_pass this = Returned this' /\
    fadeCnt this' = next_fadeCnt (fadeCnt this) /\
    forall m : nat,
      (2 * m < length prev)%nat ->
      tween_pixel prev nw (prevFade (fadeCnt this)) (newFade (fadeCnt this))
        (2 * m) =
      (spec_blend (fst (update_vals (sample_total prev (2 * m))))
                  (fst (update_vals (sample_total nw (2 * m))))
                  (fadeCnt this),
       spec_blend (snd (update_vals (sample_total prev (2 * m))))
                  (snd (update_vals (sample_total nw (2 * m))))
                  (fadeCnt this),
       spec_blend (snd (update_vals (sample_total prev (2 * m))))
                  (snd (update_vals (sample_total nw (2 * m))))
                  (fadeCnt this),
       255%float) /\
      forall ch : nat,
        (ch < 4)%nat ->
        (4 * m + ch < length (imageData this))%nat ->
        imageData this' !! (4 * m + ch)%nat =
        Some (Num.toUint8Clamp
                (channel
                   (tween_pixel prev nw (prevFade (fadeCnt this))
                      (newFade (fadeCnt this)) (2 * m)) ch)).
Proof.
  intros Hp Hn. eexists.
  split; [apply (blend_pass_eq this prev nw Hp Hn)|].
  cbn [fadeCnt imageData].
  split; [reflexivity|].
  intros m Hm. split.
  - unfold tween_pixel.
    rewrite (tween_prev_vals_eq (sample_total prev (2 * m))).
    rewrite (tween_new_vals_eq (sample_total nw (2 * m))).
    destruct (update_vals (sample_total prev (2 * m))) as [p1 p2].
    destruct (update_vals (sample_total nw (2 * m))) as [n1 n2].
    reflexivity.
  - intros ch Hch Hlen. apply pixels_lt in Hm.
    rewrite (lookup_painted_pixel
               (tween_px prev nw (prevFade (fadeCnt this))
                  (newFade (fadeCnt this)))
               (pixels (length prev)) (imageData this) m ch Hm Hch Hlen).
    unfold tween_px. reflexivity.
Qed.

Lemma C4_witness :
  exists this',
    blend_pass (fading 1 [x00; x00] [x00; x08] 10) = Returned this' /\
    fadeCnt this' = next_fadeCnt (fadeCnt (fading 1 [x00; x00] [x00; x08] 10)) /\
    forall m : nat,
      (2 * m < length [x00; x00])%nat ->
      tween_pixel [x00; x00] [x00; x08]
        (prevFade (fadeCnt (fading 1 [x00; x00] [x00; x08] 10)))
        (newFade (fadeCnt (fading 1 [x00; x00] [x00; x08] 10))) (2 * m) =
      (spec_blend (fst (update_vals (sample_total [x00; x00] (2 * m))))
                  (fst (update_vals (sample_total [x00; x08] (2 * m))))
                  (fadeCnt (fading 1 [x00; x00] [x00; x08] 10)),
       spec_blend (snd (update_vals (sample_total [x00; x00] (2 * m))))
                  (snd (update_vals (sample_total [x00; x08] (2 * m))))
                  (fadeCnt (fading 1 [x00; x00] [x00; x08] 10)),
       spec_blend (snd (update_vals (sample_total [x00; x00] (2 * m))))
                  (snd (update_vals (sample_total [x00; x08] (2 * m))))
                  (fadeCnt (fading 1 [x00; x00] [x00; x08] 10)),
       255%float) /\
      forall ch : nat,
        (ch < 4)%nat ->
        (4 * m + ch <
         length (imageData (fading 1 [x00; x00] [x00; x08] 10)))%nat ->
        imageData this' !! (4 * m + ch)%nat =
        Some (Num.toUint8Clamp
                (channel
                   (tween_pixel [x00; x00] [x00; x08]
                      (prevFade (fadeCnt (fading 1 [x00; x00] [x00; x08] 10)))
                      (newFade (fadeCnt (fading 1 [x00; x00] [x00; x08] 10)))
                      (2 * m)) ch)).
Proof.
  apply (C4_blend_linearity (fading 1 [x00; x00] [x00; x08] 10)
           [x00; x00] [x00; x08]); reflexivity.
Defined.

(** The pass of step 10 between totals 0 and 2048: red is
    [255 * (1 - 10/25) + 0 * (10/25) = 153], green and blue stay 255. *)
Example blend_pass_step_10 :
  blend_pass (fading 1 [x00; x00] [x00; x08] 10) =
  Returned (MeshFromKinect [153; 255; 255; 255] true
              (JArray [x00; x00]) (JArray [x00; x08]) 11 2) /\
  Num.toUint8Clamp (spec_blend 255 0 10) = 153.
Proof. split; vm_compute; reflexivity. Qed.

(* ===================================================================== *)
(** ** Frames of odd or unequal length *)
(* ===================================================================== *)

Lemma elt32_padded (d : list byte) (b : byte) (i : nat) :
  elt32 (d ++ [b; x00]) i = elt32 (d ++ [b]) i.
Proof.
  unfold elt32.
  destruct (Nat.lt_ge_cases i (length d)) as [Hlt|Hge].
  - rewrite !lookup_app_l by assumption. reflexivity.
  - rewrite !lookup_app_r by assumption.
    destruct (i - length d)%nat as [|[|j]]; reflexivity.
Qed.

Lemma update_px_padded (d : list byte) (b : byte) (m : nat) :
  update_px (d ++ [b; x00]) m = update_px (d ++ [b]) m.
Proof.
  unfold update_px, update_pixel, sample_total.
  rewrite !elt32_padded. reflexivity.
Qed.

Lemma pixels_padded (d : list byte) (b : byte) :
  Nat.Even (length d) ->
  pixels (length (d ++ [b; x00])) = pixels (length (d ++ [b])).
Proof.
  intros [h Hh]. rewrite !length_app. cbn [length]. rewrite Hh.
  unfold pixels.
  replace (2 * h + 2 + 1)%nat with (1 + (h + 1) * 2)%nat by lia.
  replace (2 * h + 1 + 1)%nat with (0 + (h + 1) * 2)%nat by lia.
  rewrite !Nat.div_add by lia. reflexivity.
Qed.

(** C5, as the script has it.  [updateCanvasData] checks no length and
    never throws.  On a frame of odd length the last byte is encoded as a
    sample of its own, the missing high byte reading as 0: the call does
    what it does on the frame padded with one zero byte. *)
Theorem C5_odd_length_padded (this : meshFromKinect) (d : list byte)
    (b : byte) :
  Nat.Even (length d) ->
  (exists this', updateCanvasData this (d ++ [b]) = Returned this') /\
  updateCanvasData this (d ++ [b]) = updateCanvasData this (d ++ [b; x00]) /\
  sample_total (d ++ [b]) (length d) = byteZ b /\
  (forall depth, exists this', updateCanvasData this depth = Returned this').
Proof.
  intros Heven.
  split; [eexists; apply updateCanvasData_eq|].
  split.
  { rewrite !updateCanvasData_eq.
    rewrite (pixels_padded d b Heven).
    rewrite (painted_ext (update_px (d ++ [b; x00])) (update_px (d ++ [b])))
      by (intros; rewrite update_px_padded; reflexivity).
    reflexivity. }
  split.
  { rewrite sample_total_eq. unfold elt32.
    rewrite lookup_app_r by lia. rewrite lookup_app_r by lia.
    replace (length d + 1 - length d)%nat with 1%nat by lia.
    rewrite Nat.sub_diag. cbn [lookup list_lookup]. lia. }
  intros depth. eexists. apply updateCanvasData_eq.
Qed.

Lemma C5_witness :
  (exists this', updateCanvasData (idle 1 [x00; x00]) ([] ++ [x05])
                 = Returned this') /\
  updateCanvasData (idle 1 [x00; x00]) ([] ++ [x05])
    = updateCanvasData (idle 1 [x00; x00]) ([] ++ [x05; x00]) /\
  sample_total ([] ++ [x05]) (length (@nil byte)) = byteZ x05 /\
  (forall depth, exists this',
     updateCanvasData (idle 1 [x00; x00]) depth = Returned this').
Proof.
  apply (C5_odd_length_padded (idle 1 [x00; x00]) [] x05).
  exists 0%nat. reflexivity.
Defined.

(** C5 as the spec words it fails: a frame of one byte, 5, makes
    [updateCanvasData] return, with the pixel of total 5 written. *)
Lemma C5_counterexample :
  Nat.Odd (length [x05]) /\
  updateCanvasData (idle 1 [x00; x00]) [x05] =
  Returned (MeshFromKinect [254; 255; 255; 255] true
              (JArray [x00; x00]) (JArray [x00; x00]) 0 0).
Proof.
  split; [exists 0%nat; reflexivity|]. vm_compute. reflexivity.
Qed.

(** A sample read past the end of the new frame has total 0 and encodes
    to (255, 255). *)
Lemma sample_total_past_end (a : list byte) (i : nat) :
  (length a <= i)%nat -> sample_total a i = 0.
Proof.
  intros Hi. rewrite sample_total_eq. unfold elt32.
  rewrite !lookup_ge_None_2 by lia. reflexivity.
Qed.

(** C6, as the script has it.  A blend pass compares no lengths and does
    not throw on two stored arrays, whatever their lengths: it paints one
    pixel per sample of the previous frame, a sample past the end of the
    new frame counting as total 0 (encoded 255, 255), and samples of the
    new frame past the previous frame's length going unread. *)
Theorem C6_length_mismatch_blended (this : meshFromKinect)
    (prev nw : list byte) :
  prevCanvasData this = JArray prev ->
  newCanvasData this = JArray nw ->
  exists this',
    blend_pass this = Returned this' /\
    imageData this' =
      painted (tween_px prev nw (prevFade (fadeCnt this))
                 (newFade (fadeCnt this)))
        (pixels (length prev)) (imageData this) /\
    length (imageData this') = length (imageData this) /\
    (forall i, (length nw <= i)%nat ->
       tween_new_vals (sample_total nw i) = (255%float, 255%float)) /\
    (forall nw', take (length prev + 1) nw' = take (length prev + 1) nw ->
       blend_pass (set_newCanvasData (JArray nw') this) =
       Returned (set_newCanvasData (JArray nw') this')).
Proof.
  intros Hp Hn. eexists.
  split; [apply (blend_pass_eq this prev nw Hp Hn)|].
  cbn [imageData].
  split; [reflexivity|]. split; [apply length_painted|].
  split.
  { intros i Hi. rewrite (sample_total_past_end nw i Hi).
    vm_compute. reflexivity. }
  intros nw' Htake.
  rewrite (blend_pass_eq _ prev nw')
    by (cbn [prevCanvasData newCanvasData set_newCanvasData];
        (assumption || reflexivity)).
  cbn [fadeCnt imageData animationFrames set_newCanvasData needsUpdate
       prevCanvasData newCanvasData].
  rewrite (painted_ext (tween_px prev nw' (prevFade (fadeCnt this))
                          (newFade (fadeCnt this)))
             (tween_px prev nw (prevFade (fadeCnt this))
                (newFade (fadeCnt this)))); [reflexivity|].
  intros m c Hm Hc. apply pixels_lt in Hm.
  unfold tween_px, tween_pixel, sample_total, elt32.
  assert (Hlook : forall j, (j < length prev + 1)%nat -> nw' !! j = nw !! j).
  { intros j Hj.
    rewrite <- (lookup_take_lt nw' (length prev + 1) j) by exact Hj.
    rewrite <- (lookup_take_lt nw (length prev + 1) j) by exact Hj.
    rewrite Htake. reflexivity. }
  rewrite (Hlook (2 * m)%nat) by lia.
  rewrite (Hlook (2 * m + 1)%nat) by lia.
  reflexivity.
Qed.

Lemma C6_witness :
  exists this',
    blend_pass (fading 2 [x00; x00; x00; x00] [x00; x08] 25)
      = Returned this' /\
    imageData this' =
      painted (tween_px [x00; x00; x00; x00] [x00; x08]
                 (prevFade
                    (fadeCnt (fading 2 [x00; x00; x00; x00] [x00; x08] 25)))
                 (newFade
                    (fadeCnt (fading 2 [x00; x00; x00; x00] [x00; x08] 25))))
        (pixels (length [x00; x00; x00; x00]))
        (imageData (fading 2 [x00; x00; x00; x00] [x00; x08] 25)) /\
    length (imageData this') =
      length (imageData (fading 2 [x00; x00; x00; x00] [x00; x08] 25)) /\
    (forall i, (length [x00; x08] <= i)%nat ->
       tween_new_vals (sample_total [x00; x08] i)
       = (255%float, 255%float)) /\
    (forall nw',
       take (length [x00; x00; x00; x00] + 1) nw'
       = take (length [x00; x00; x00; x00] + 1) [x00; x08] ->
       blend_pass (set_newCanvasData (JArray nw')
                     (fading 2 [x00; x00; x00; x00] [x00; x08] 25)) =
       Returned (set_newCanvasData (JArray nw') this')).
Proof.
  apply (C6_length_mismatch_blended
           (fading 2 [x00; x00; x00; x00] [x00; x08] 25)
           [x00; x00; x00; x00] [x00; x08]); reflexivity.
Defined.

(** C6 as the spec words it fails: with a previous frame of two samples and
    a new frame of one, the animation frame of step 25 returns and has
    written both pixels, the second from a sample the new frame does not
    have. *)
Lemma C6_counterexample :
  length [x00; x00; x00; x00] <> length [x00; x08] /\
  imageData (fading 2 [x00; x00; x00; x00] [x00; x08] 25)
    = [0; 0; 0; 0; 0; 0; 0; 0] /\
  animationFrame (fading 2 [x00; x00; x00; x00] [x00; x08] 25) =
  Some (Returned
          (MeshFromKinect [0; 255; 255; 255; 255; 255; 255; 255] true
             (JArray [x00; x00; x00; x00]) (JArray [x00; x08]) 0 0)).
Proof.
  split; [discriminate|]. split; vm_compute; reflexivity.
Qed.

(* ===================================================================== *)
(** ** A frame blended with itself *)
(* ===================================================================== *)

Lemma same_byte_eq (x : float) (k : Z) :
  same_byte x (Num.toUint8Clamp x) (prevFade k) (newFade k) = true ->
  Num.toUint8Clamp (self_blend x k) = Num.toUint8Clamp x.
Proof.
  unfold same_byte, self_blend. cbv zeta. intros H.
  apply orb_prop in H as [H|H].
  - apply feq_eq in H. rewrite H. reflexivity.
  - apply Z.eqb_eq. exact H.
Qed.

Lemma self_blend_const (k : Z) :
  0 <= k <= steps ->
  same_byte 0 (Num.toUint8Clamp 0) (prevFade k) (newFade k) = true /\
  same_byte 255 (Num.toUint8Clamp 255) (prevFade k) (newFade k) = true.
Proof.
  intros Hk.
  pose proof (proj1 (forallb_forall _ _) const_blend_checked _
                (weights_In k Hk)) as Hc.
  apply andb_prop in Hc. exact Hc.
Qed.

Lemma self_blend_varying (t k : Z) :
  0 <= t <= 65535 -> 0 <= k <= steps -> tie t k = false ->
  same_byte (varying t) (Num.toUint8Clamp (varying t))
    (prevFade k) (newFade k) = true.
Proof.
  intros Ht Hk Htie.
  pose proof (all_in_spec 0 65535 _ self_blend_checked t Ht) as Hrow.
  pose proof (proj1 (forallb_forall _ _) Hrow _ (weights_In k Hk)) as Hcell.
  apply orb_prop in Hcell as [Hcell|Hcell]; [|exact Hcell].
  cbn [fst] in Hcell. congruence.
Qed.

Lemma self_blend_bytes (t k : Z) (v1 v2 : float) :
  0 <= t <= 65535 -> 0 <= k <= steps -> tie t k = false ->
  update_vals t = (v1, v2) ->
  Num.toUint8Clamp (self_blend v1 k) = Num.toUint8Clamp v1 /\
  Num.toUint8Clamp (self_blend v2 k) = Num.toUint8Clamp v2.
Proof.
  intros Ht Hk Htie Hv.
  destruct (self_blend_const k Hk) as [H0 H255].
  pose proof (self_blend_varying t k Ht Hk Htie) as Hvar.
  unfold varying in Hvar. rewrite Hv in Hvar.
  destruct (Z.gtb_spec t 1024) as [Hgt|Hle].
  - rewrite (update_vals_gt t Hgt) in Hv. injection Hv as <- <-.
    split; apply same_byte_eq; assumption.
  - rewrite (update_vals_le t Hle) in Hv. injection Hv as <- <-.
    split; apply same_byte_eq; assumption.
Qed.

(** C10, as the script has it.  The encoder inside [tweenCanvasData] is the
    function [updateCanvasData] uses.  When both stored frames are the same
    frame, a blend pass at a step in [0, 25] returns, and every byte of
    the store is the byte [updateCanvasData] leaves there for that frame,
    except in the pixels of the samples where the double-precision blend
    [x * (1 - k/25) + x * (k/25)] falls off a rounding tie: the samples of
    total 512 and 1536, at step 1 only.  There the blend stores 127 where
    [updateCanvasData] stores 128: in the red byte for total 512, in the
    green and the blue byte for total 1536. *)
Theorem C10_self_blend (this : meshFromKinect) (d : list byte) :
  prevCanvasData this = JArray d ->
  newCanvasData this = JArray d ->
  0 <= fadeCnt this <= steps ->
  (forall total,
     tween_new_vals total = update_vals total /\
     tween_prev_vals total = update_vals total) /\
  exists this',
    blend_pass this = Returned this' /\
    length (imageData this') =
      length (imageData (object_of (updateCanvasData this d))) /\
    (forall x : nat,
       ~ (fadeCnt this = 1 /\
          (sample_total d (2 * (x / 4)) = 512 \/
           sample_total d (2 * (x / 4)) = 1536)) ->
       imageData this' !! x =
       imageData (object_of (updateCanvasData this d)) !! x) /\
    (forall m : nat,
       fadeCnt this = 1 ->
       (2 * m < length d)%nat ->
       (4 * m + 3 < length (imageData this))%nat ->
       (sample_total d (2 * m) = 512 ->
        imageData this' !! (4 * m + 0)%nat = Some 127 /\
        imageData (object_of (updateCanvasData this d)) !! (4 * m + 0)%nat =
          Some 128) /\
       (sample_total d (2 * m) = 1536 ->
        imageData this' !! (4 * m + 1)%nat = Some 127 /\
        imageData this' !! (4 * m + 2)%nat = Some 127 /\
        imageData (object_of (updateCanvasData this d)) !! (4 * m + 1)%nat =
          Some 128 /\
        imageData (object_of (updateCanvasData this d)) !! (4 * m + 2)%nat =
          Some 128)).
Proof.
  intros Hp Hn Hk.
  split; [intros total; split; reflexivity|].
  eexists. split; [apply (blend_pass_eq this d d Hp Hn)|].
  rewrite updateCanvasData_eq. cbn [object_of imageData].
  split; [rewrite !length_painted; reflexivity|].
  split.
  - intros x Hx. rewrite !lookup_painted.
    destruct (imageData this !! x) as [old|];
      cbv [fmap option_fmap option_map]; [|reflexivity].
    destruct (Nat.ltb_spec x (4 * pixels (length d))); [|reflexivity].
    f_equal.
    unfold tween_px, tween_pixel, update_px, update_pixel.
    rewrite (tween_prev_vals_eq (sample_total d (2 * (x / 4)))).
    rewrite (tween_new_vals_eq (sample_total d (2 * (x / 4)))).
    destruct (update_vals (sample_total d (2 * (x / 4)))) as [v1 v2] eqn:Hv.
    assert (Htie : tie (sample_total d (2 * (x / 4))) (fadeCnt this) = false).
    { unfold tie.
      destruct (Z.eqb_spec (fadeCnt this) 1) as [H1|]; [|reflexivity].
      destruct (Z.eqb_spec (sample_total d (2 * (x / 4))) 512) as [Ha|_];
        [exfalso; apply Hx; split; [exact H1|left; exact Ha]|].
      destruct (Z.eqb_spec (sample_total d (2 * (x / 4))) 1536) as [Hb|_];
        [exfalso; apply Hx; split; [exact H1|right; exact Hb]|].
      reflexivity. }
    destruct (self_blend_bytes _ _ _ _
                (sample_total_range d (2 * (x / 4))) Hk Htie Hv)
      as [H1 H2].
    unfold self_blend in H1, H2.
    destruct (x mod 4)%nat as [|[|[|c]]]; cbn [channel];
      try assumption; reflexivity.
  - intros m H1 Hm Hlen. apply pixels_lt in Hm. rewrite H1.
    split; intros Ht.
    + rewrite (lookup_painted_pixel
                 (tween_px d d (prevFade 1) (newFade 1)) _ _ m 0 Hm)
        by lia.
      rewrite (lookup_painted_pixel (update_px d) _ _ m 0 Hm) by lia.
      unfold tween_px, tween_pixel, update_px, update_pixel.
      rewrite Ht. split; vm_compute; reflexivity.
    + rewrite (lookup_painted_pixel
                 (tween_px d d (prevFade 1) (newFade 1)) _ _ m 1 Hm)
        by lia.
      rewrite (lookup_painted_pixel
                 (tween_px d d (prevFade 1) (newFade 1)) _ _ m 2 Hm)
        by lia.
      rewrite (lookup_painted_pixel (update_px d) _ _ m 1 Hm) by lia.
      rewrite (lookup_painted_pixel (update_px d) _ _ m 2 Hm) by lia.
      unfold tween_px, tween_pixel, update_px, update_pixel.
      rewrite Ht. repeat split; vm_compute; reflexivity.
Qed.

Lemma C10_witness :
  (forall total,
     tween_new_vals total = update_vals total /\
     tween_prev_vals total = update_vals total) /\
  exists this',
    blend_pass (fading 2 [x00; x02; x05; x00] [x00; x02; x05; x00] 1) =
      Returned this' /\
    length (imageData this') =
      length
        (imageData
           (object_of
              (updateCanvasData
                 (fading 2 [x00; x02; x05; x00] [x00; x02; x05; x00] 1)
                 [x00; x02; x05; x00]))) /\
    (forall x : nat,
       ~ (fadeCnt (fading 2 [x00; x02; x05; x00] [x00; x02; x05; x00] 1) =
            1 /\
          (sample_total [x00; x02; x05; x00] (2 * (x / 4)) = 512 \/
           sample_total [x00; x02; x05; x00] (2 * (x / 4)) = 1536)) ->
       imageData this' !! x =
       imageData
         (object_of
            (updateCanvasData
               (fading 2 [x00; x02; x05; x00] [x00; x02; x05; x00] 1)
               [x00; x02; x05; x00])) !! x) /\
    (forall m : nat,
       fadeCnt (fading 2 [x00; x02; x05; x00] [x00; x02; x05; x00] 1) = 1 ->
       (2 * m < length [x00; x02; x05; x00])%nat ->
       (4 * m + 3 <
        length
          (imageData
             (fading 2 [x00; x02; x05; x00] [x00; x02; x05; x00] 1)))%nat ->
       (sample_total [x00; x02; x05; x00] (2 * m) = 512 ->
        imageData this' !! (4 * m + 0)%nat = Some 127 /\
        imageData
          (object_of
             (updateCanvasData
                (fading 2 [x00; x02; x05; x00] [x00; x02; x05; x00] 1)
                [x00; x02; x05; x00])) !! (4 * m + 0)%nat = Some 128) /\
       (sample_total [x00; x02; x05; x00] (2 * m) = 1536 ->
        imageData this' !! (4 * m + 1)%nat = Some 127 /\
        imageData this' !! (4 * m + 2)%nat = Some 127 /\
        imageData
          (object_of
             (updateCanvasData
                (fading 2 [x00; x02; x05; x00] [x00; x02; x05; x00] 1)
                [x00; x02; x05; x00])) !! (4 * m + 1)%nat = Some 128 /\
        imageData
          (object_of
             (updateCanvasData
                (fading 2 [x00; x02; x05; x00] [x00; x02; x05; x00] 1)
                [x00; x02; x05; x00])) !! (4 * m + 2)%nat = Some 128)).
Proof.
  apply (C10_self_blend
           (fading 2 [x00; x02; x05; x00] [x00; x02; x05; x00] 1)
           [x00; x02; x05; x00]).
  - reflexivity.
  - reflexivity.
  - cbn [fadeCnt fading]. unfold steps. lia.
Defined.

(** C10 as the spec words it fails: a frame whose one sample has total 512
    encodes to red 127.5, stored as 128; blended with itself at step 1
    the double-precision sum is [127.5 - 2^-46], stored as 127. *)
Lemma C10_counterexample :
  Nat.Even (length [x00; x02]) /\
  sample_total [x00; x02] 0 = 512 /\
  imageData (object_of (updateCanvasData (fading 1 [x00; x02] [x00; x02] 1)
                          [x00; x02]))
    = [128; 255; 255; 255] /\
  animationFrame (fading 1 [x00; x02] [x00; x02] 1) =
  Some (Returned
          (MeshFromKinect [127; 255; 255; 255] true
             (JArray [x00; x02]) (JArray [x00; x02]) 2 1)) /\
  has_value (fst (update_vals 512)) (255 # 2) = true /\
  has_value (self_blend (fst (update_vals 512)) 1)
    ((255 # 2) - (1 # 70368744177664)) = true.
Proof.
  split; [exists 1%nat; reflexivity|].
  repeat split; vm_compute; reflexivity.
Qed.

(** The same two bytes in a run of the script: constructed with
    [initDepth] of total 512, the object holds red 128 in its first pixel;
    the first animation frame, the pass of step 1 over the frame and
    itself, stores 127 there. *)
Lemma first_frame_flicker :
  imageData (constructed [x00; x02]) !! 0%nat = Some 128 /\
  exists this',
    animationFrame (constructed [x00; x02]) = Some (Returned this') /\
    imageData this' !! 0%nat = Some 127.
Proof.
  rewrite constructed_eq. cbn [imageData].
  assert (Hlen : (4 * 0 + 0 < length (replicate canvas_bytes 0%Z))%nat).
  { rewrite length_replicate. unfold canvas_bytes.
    change (4 * 0 + 0)%nat with 0%nat.
    apply Nat.mul_pos_pos; [apply Nat.lt_0_succ|].
    apply Nat.mul_pos_pos; apply Nat.lt_0_succ. }
  split.
  - rewrite (lookup_painted_pixel (update_px [x00; x02])
               (pixels (length [x00; x02])) _ 0 0);
      [vm_compute; reflexivity | vm_compute; lia | lia | exact Hlen].
  - eexists. split.
    + rewrite (animationFrame_eq _ [x00; x02] [x00; x02] 0)
        by (cbn [prevCanvasData newCanvasData fadeCnt animationFrames];
            (reflexivity || lia)).
      rewrite (blend_pass_eq _ [x00; x02] [x00; x02]) by reflexivity.
      reflexivity.
    + cbn [imageData fadeCnt set_animationFrames]. rewrite painted_painted.
      rewrite (lookup_painted_pixel
                 (tween_px [x00; x02] [x00; x02] (prevFade 1) (newFade 1))
                 (pixels (length [x00; x02])) _ 0 0);
        [vm_compute; reflexivity | vm_compute; lia | lia | exact Hlen].
Qed.

(* ===================================================================== *)
(** ** Orderly and disorderly runs *)
(* ===================================================================== *)

Lemma submit_null (this : meshFromKinect) (depth : list byte) :
  newCanvasData this = JNull -> fadeCnt this = 0 ->
  tweenCanvasData this (Some depth) =
  Returned (MeshFromKinect
              (painted (update_px depth) (pixels (length depth))
                 (imageData this))
              true (JArray depth) (JArray depth) 1
              (S (animationFrames this))).
Proof.
  intros Hn Hk. unfold tweenCanvasData. rewrite Hn. cbn [arg].
  rewrite (tween_else_idle _ depth depth)
    by (cbn [newCanvasData fadeCnt set_newCanvasData]; (reflexivity || exact Hk)).
  reflexivity.
Qed.

Lemma in_step_blend_pass (this : meshFromKinect) (prev nw : list byte) :
  prevCanvasData this = JArray prev -> newCanvasData this = JArray nw ->
  0 <= fadeCnt this <= steps -> animationFrames this = 0%nat ->
  in_step (object_of (blend_pass this)).
Proof.
  intros Hp Hn Hk Hf. rewrite (blend_pass_eq this prev nw Hp Hn).
  cbn [object_of]. right. exists prev, nw.
  cbn [prevCanvasData newCanvasData fadeCnt animationFrames].
  split; [reflexivity|]. split; [reflexivity|].
  split; [apply next_fadeCnt_range; exact Hk|].
  rewrite Hf. unfold next_fadeCnt.
  destruct (Z.gtb_spec (fadeCnt this + 1) steps) as [Hgt|Hle]; [reflexivity|].
  destruct (Z.eqb_spec (fadeCnt this + 1) 0); [lia|reflexivity].
Qed.

Lemma orderly_in_step (this : meshFromKinect) : orderly this -> in_step this.
Proof.
  induction 1 as [initDepth|this depth Hord IH|this depth Hord IH Hk
                 |this r Hord IH Hr].
  - destruct initDepth as [a|].
    + fold (constructed a). rewrite constructed_eq. right. exists a, a.
      cbn [prevCanvasData newCanvasData fadeCnt animationFrames].
      unfold steps. repeat split; lia.
    + left. cbn. repeat split; reflexivity.
  - rewrite updateCanvasData_eq. cbn [object_of].
    destruct IH as [(Hp & Hn & Hk & Hf)|(prev & nw & Hp & Hn & Hk & Hf)].
    + left. cbn [prevCanvasData newCanvasData fadeCnt animationFrames].
      repeat split; assumption.
    + right. exists prev, nw.
      cbn [prevCanvasData newCanvasData fadeCnt animationFrames].
      repeat split; (assumption || apply Hk).
  - destruct IH as [(Hp & Hn & _ & Hf)|(prev & nw & Hp & Hn & _ & Hf)].
    + rewrite (submit_null this depth Hn Hk). cbn [object_of].
      right. exists depth, depth.
      cbn [prevCanvasData newCanvasData fadeCnt animationFrames].
      rewrite Hf. unfold steps. repeat split; lia.
    + rewrite (submit_idle this nw depth Hn Hk). cbn [object_of].
      right. exists nw, depth.
      cbn [prevCanvasData newCanvasData fadeCnt animationFrames].
      rewrite Hf, Hk. unfold steps. repeat split; lia.
  - unfold animationFrame in Hr.
    destruct IH as [(Hp & Hn & Hk & Hf)|(prev & nw & Hp & Hn & Hk & Hf)].
    + rewrite Hf in Hr. discriminate.
    + destruct (Z.eqb_spec (fadeCnt this) 0) as [H0|Hne];
        rewrite Hf in Hr; [discriminate|].
      injection Hr as <-.
      rewrite (tweenCanvasData_midfade _ nw)
        by (cbn [newCanvasData fadeCnt set_animationFrames]; assumption).
      apply (in_step_blend_pass _ prev nw);
        cbn [prevCanvasData newCanvasData fadeCnt animationFrames
             set_animationFrames]; (assumption || reflexivity).
Qed.

(** X1.  In an orderly run nothing throws and at most one animation-frame
    callback is pending: none while the counter is 0, exactly one during a
    fade.  A frame handed over at counter 0 is accepted, and every pending
    callback returns. *)
Theorem orderly_never_throws (this : meshFromKinect) :
  orderly this ->
  (animationFrames this = if fadeCnt this =? 0 then 0%nat else 1%nat) /\
  (forall depth, fadeCnt this = 0 ->
     exists this', tweenCanvasData this (Some depth) = Returned this' /\
                   fadeCnt this' = 1 /\ animationFrames this' = 1%nat) /\
  (forall r, animationFrame this = Some r ->
     exists this', r = Returned this' /\
                   fadeCnt this' = next_fadeCnt (fadeCnt this)).
Proof.
  intros Hord.
  destruct (orderly_in_step this Hord)
    as [(Hp & Hn & Hk & Hf)|(prev & nw & Hp & Hn & Hk & Hf)].
  - split; [rewrite Hk, Hf; reflexivity|]. split.
    + intros depth _. eexists. split; [apply (submit_null this depth Hn Hk)|].
      cbn [fadeCnt animationFrames]. rewrite Hf. split; reflexivity.
    + intros r Hr. unfold animationFrame in Hr. rewrite Hf in Hr. discriminate.
  - split; [exact Hf|]. split.
    + intros depth H0. eexists.
      split; [apply (submit_idle this nw depth Hn H0)|].
      cbn [fadeCnt animationFrames]. rewrite Hf, H0. split; reflexivity.
    + intros r Hr. unfold animationFrame in Hr.
      destruct (Z.eqb_spec (fadeCnt this) 0) as [H0|Hne];
        rewrite Hf in Hr; [discriminate|].
      injection Hr as <-.
      rewrite (tweenCanvasData_midfade _ nw)
        by (cbn [newCanvasData fadeCnt set_animationFrames]; assumption).
      rewrite (blend_pass_eq _ prev nw)
        by (cbn [prevCanvasData newCanvasData set_animationFrames]; assumption).
      eexists. split; [reflexivity|]. reflexivity.
Qed.

Lemma orderly_never_throws_witness :
  (animationFrames (constructed [x00; x08]) =
     if fadeCnt (constructed [x00; x08]) =? 0 then 0%nat else 1%nat) /\
  (forall depth, fadeCnt (constructed [x00; x08]) = 0 ->
     exists this',
       tweenCanvasData (constructed [x00; x08]) (Some depth) = Returned this' /\
       fadeCnt this' = 1 /\ animationFrames this' = 1%nat) /\
  (forall r, animationFrame (constructed [x00; x08]) = Some r ->
     exists this', r = Returned this' /\
                   fadeCnt this' = next_fadeCnt (fadeCnt (constructed [x00; x08]))).
Proof.
  apply (orderly_never_throws (constructed [x00; x08])).
  apply orderly_construct.
Defined.

Lemma animate_add (a b : nat) (this : meshFromKinect) :
  animate (a + b) this =
  match animate a this with
  | Some (Returned this') => animate b this'
  | other => other
  end.
Proof.
  revert this. induction a as [|a IH]; intros this.
  - reflexivity.
  - cbn [Nat.add animate].
    destruct (animationFrame this) as [[this'|e this']|]; [apply IH| |];
      reflexivity.
Qed.

(** A callback that runs when the counter is 0: it stores its missing
    argument as the new frame and throws on the first sample. *)
Lemma stray_frame_throws (this : meshFromKinect) (cur : list byte) (f : nat) :
  newCanvasData this = JArray cur -> (0 < length cur)%nat ->
  fadeCnt this = 0 -> animationFrames this = S f ->
  animationFrame this =
  Some (Threw TypeError
          (MeshFromKinect (imageData this) (needsUpdate this)
             (JArray cur) JUndefined 0 f)).
Proof.
  intros Hn Hlen Hk Hf.
  unfold animationFrame, tweenCanvasData, tween_else, blend_pass.
  rewrite Hf. cbn [newCanvasData prevCanvasData fadeCnt set_animationFrames
                   set_newCanvasData set_prevCanvasData arg].
  rewrite Hn, Hk. cbn [Z.eqb].
  cbn [newCanvasData prevCanvasData fadeCnt set_animationFrames
       set_newCanvasData set_prevCanvasData].
  destruct (Nat.ltb_spec 0 (length cur)) as [_|Hge]; [|lia].
  cbv [set_newCanvasData set_prevCanvasData set_animationFrames].
  cbn [imageData needsUpdate prevCanvasData newCanvasData fadeCnt
       animationFrames].
  rewrite Hk. reflexivity.
Qed.

(** X2.  One call of [tweenCanvasData] in the middle of a fade, out of an
    orderly run, ends in a [TypeError]: the call schedules a callback of its
    own beside the one already pending, so one callback is left over when
    the fade ends; it runs with the counter at 0, stores [undefined] as the
    new frame and throws.  With the counter at [k] on the call, this is
    the [(26 - k)]th animation frame after it. *)
Theorem midfade_submit_breaks (this : meshFromKinect) (cur depth : list byte) :
  orderly this ->
  fadeCnt this <> 0 ->
  newCanvasData this = JArray cur ->
  (0 < length cur)%nat ->
  exists this1 this2,
    tweenCanvasData this (Some depth) = Returned this1 /\
    animationFrames this1 = (if fadeCnt this =? steps then 1%nat else 2%nat) /\
    (forall n, (n < Z.to_nat (26 - fadeCnt this))%nat ->
       exists this', animate n this1 = Some (Returned this')) /\
    animate (Z.to_nat (26 - fadeCnt this)) this1 =
      Some (Threw TypeError this2) /\
    newCanvasData this2 = JUndefined /\
    prevCanvasData this2 = JArray cur /\
    fadeCnt this2 = 0 /\
    animationFrames this2 = 0%nat.
Proof.
  intros Hord Hne Hn Hlen.
  destruct (orderly_in_step this Hord)
    as [(_ & Hnull & _)|(prev & nw & Hp & Hn' & Hk & Hf)]; [congruence|].
  rewrite Hn in Hn'. injection Hn' as <-.
  destruct (Z.eqb_spec (fadeCnt this) 0) as [|_]; [contradiction|].
  rewrite (tweenCanvasData_midfade this cur (Some depth) Hn Hne).
  rewrite (blend_pass_eq this prev cur Hp Hn). rewrite Hf.
  destruct (Z.eqb_spec (fadeCnt this) steps) as [H25|Hlt].
  - (* the call runs the last pass itself *)
    rewrite H25. eexists. eexists. split; [reflexivity|].
    cbn [animationFrames]. split; [reflexivity|].
    change (Z.to_nat (26 - steps)) with 1%nat.
    split.
    { intros n Hn1. replace n with 0%nat by lia. eexists. reflexivity. }
    cbn [animate].
    rewrite (stray_frame_throws _ cur 0)
      by (cbn [newCanvasData fadeCnt animationFrames];
          (reflexivity || exact Hlen)).
    repeat split; reflexivity.
  - assert (Hk' : 1 <= fadeCnt this + 1 <= steps) by (unfold steps in *; lia).
    destruct (Z.gtb_spec (fadeCnt this + 1) steps) as [Hgt|_]; [lia|].
    rewrite (next_fadeCnt_below (fadeCnt this)) by lia.
    eexists. eexists. split; [reflexivity|].
    cbn [animationFrames]. split; [reflexivity|].
    split.
    { intros [|n] Hn1; [eexists; reflexivity|].
      rewrite (animate_fade n _ prev cur 1)
        by (cbn [prevCanvasData newCanvasData fadeCnt animationFrames];
            (reflexivity || (unfold steps in *; lia))).
      eexists. reflexivity. }
    replace (Z.to_nat (26 - fadeCnt this))
      with (S (Z.to_nat (24 - fadeCnt this)) + 1)%nat
      by (unfold steps in *; lia).
    rewrite animate_add.
    rewrite (animate_fade (Z.to_nat (24 - fadeCnt this)) _ prev cur 1)
      by (cbn [prevCanvasData newCanvasData fadeCnt animationFrames];
          (reflexivity || (unfold steps in *; lia))).
    cbn [fadeCnt imageData animate].
    replace (fadeCnt this + 1 + Z.of_nat (Z.to_nat (24 - fadeCnt this)))
      with steps by (unfold steps in *; lia).
    change (steps + 1 >? steps) with true. cbv iota.
    change (next_fadeCnt steps) with 0.
    rewrite (stray_frame_throws _ cur 0)
      by (cbn [newCanvasData fadeCnt animationFrames];
          (reflexivity || exact Hlen)).
    repeat split; reflexivity.
Qed.

Lemma midfade_submit_breaks_witness :
  exists this1 this2,
    tweenCanvasData (constructed [x00; x08]) (Some [x00; x00])
      = Returned this1 /\
    animationFrames this1 =
      (if fadeCnt (constructed [x00; x08]) =? steps then 1%nat else 2%nat) /\
    (forall n, (n < Z.to_nat (26 - fadeCnt (constructed [x00; x08])))%nat ->
       exists this', animate n this1 = Some (Returned this')) /\
    animate (Z.to_nat (26 - fadeCnt (constructed [x00; x08]))) this1 =
      Some (Threw TypeError this2) /\
    newCanvasData this2 = JUndefined /\
    prevCanvasData this2 = JArray [x00; x08] /\
    fadeCnt this2 = 0 /\
    animationFrames this2 = 0%nat.
Proof.
  apply (midfade_submit_breaks (constructed [x00; x08]) [x00; x08] [x00; x00]).
  - apply orderly_construct.
  - rewrite constructed_eq. cbn [fadeCnt]. lia.
  - rewrite constructed_eq. reflexivity.
  - cbn [length]. lia.
Defined.

(** X3.  Once [undefined] is stored as the new frame with the counter at
    0, the next frame handed to [tweenCanvasData] is stored but the call
    throws before painting anything; the call after that is accepted, and
    its first pass paints the frame the throwing call had stored. *)
Theorem undefined_frame_costs_one_call (this : meshFromKinect)
    (d1 d2 : list byte) :
  newCanvasData this = JUndefined ->
  fadeCnt this = 0 ->
  exists this1 this2,
    tweenCanvasData this (Some d1) = Threw TypeError this1 /\
    imageData this1 = imageData this /\
    prevCanvasData this1 = JUndefined /\
    newCanvasData this1 = JArray d1 /\
    fadeCnt this1 = 0 /\
    animationFrames this1 = animationFrames this /\
    tweenCanvasData this1 (Some d2) = Returned this2 /\
    imageData this2 = imageData (object_of (updateCanvasData this d1)) /\
    prevCanvasData this2 = JArray d1 /\
    newCanvasData this2 = JArray d2 /\
    fadeCnt this2 = 1.
Proof.
  intros Hn Hk.
  assert (H1 : tweenCanvasData this (Some d1) =
               Threw TypeError
                 (MeshFromKinect (imageData this) (needsUpdate this)
                    JUndefined (JArray d1) 0 (animationFrames this))).
  { destruct this as [data nu prev nw k fr].
    cbn [newCanvasData fadeCnt] in Hn, Hk. subst nw k. reflexivity. }
  rewrite H1. eexists. eexists.
  split; [reflexivity|].
  cbn [imageData prevCanvasData newCanvasData fadeCnt animationFrames].
  do 5 (split; [reflexivity|]).
  split; [apply (submit_idle _ d1 d2); reflexivity|].
  rewrite updateCanvasData_eq.
  cbn [object_of imageData prevCanvasData newCanvasData fadeCnt].
  repeat split; reflexivity.
Qed.

Lemma undefined_frame_costs_one_call_witness :
  exists this1 this2,
    tweenCanvasData
      (MeshFromKinect [0; 0; 0; 0] true (JArray [x00; x08]) JUndefined 0 0)
      (Some [x00; x00]) = Threw TypeError this1 /\
    imageData this1 =
      imageData
        (MeshFromKinect [0; 0; 0; 0] true (JArray [x00; x08]) JUndefined 0 0) /\
    prevCanvasData this1 = JUndefined /\
    newCanvasData this1 = JArray [x00; x00] /\
    fadeCnt this1 = 0 /\
    animationFrames this1 =
      animationFrames
        (MeshFromKinect [0; 0; 0; 0] true (JArray [x00; x08]) JUndefined 0 0) /\
    tweenCanvasData this1 (Some [x00; x04]) = Returned this2 /\
    imageData this2 =
      imageData
        (object_of
           (updateCanvasData
              (MeshFromKinect [0; 0; 0; 0] true (JArray [x00; x08])
                 JUndefined 0 0) [x00; x00])) /\
    prevCanvasData this2 = JArray [x00; x00] /\
    newCanvasData this2 = JArray [x00; x04] /\
    fadeCnt this2 = 1.
Proof.
  apply (undefined_frame_costs_one_call
           (MeshFromKinect [0; 0; 0; 0] true (JArray [x00; x08])
              JUndefined 0 0) [x00; x00] [x00; x04]); reflexivity.
Defined.

(* ===================================================================== *)
(** ** [updateCanvasData] on the pixel store *)
(* ===================================================================== *)

Lemma painted_absorb (px qx : nat -> pixel) (n n' : nat) (data : list Z) :
  (n' <= n)%nat ->
  painted px n (painted qx n' data) = painted px n data.
Proof.
  intros Hn. apply list_eq; intros x. rewrite !lookup_painted.
  destruct (data !! x); cbv [fmap option_fmap option_map]; [|reflexivity].
  destruct (Nat.ltb_spec x (4 * n)); [reflexivity|].
  destruct (Nat.ltb_spec x (4 * n')); [lia|reflexivity].
Qed.

Lemma lookup_painted_rest (px : nat -> pixel) (n : nat) (data : list Z)
    (x : nat) :
  (4 * n <= x)%nat -> painted px n data !! x = data !! x.
Proof.
  intros Hx. rewrite lookup_painted.
  destruct (data !! x); cbv [fmap option_fmap option_map]; [|reflexivity].
  destruct (Nat.ltb_spec x (4 * n)); [lia|reflexivity].
Qed.

Lemma elt32_take (a : list byte) (n i : nat) :
  (i < n)%nat -> elt32 (take n a) i = elt32 a i.
Proof.
  intros Hi. unfold elt32. rewrite lookup_take_lt by assumption. reflexivity.
Qed.

Lemma update_px_take (depth : list byte) (n m : nat) :
  (m < n)%nat -> update_px (take (2 * n) depth) m = update_px depth m.
Proof.
  intros Hm. unfold update_px, update_pixel, sample_total.
  rewrite !elt32_take by lia. reflexivity.
Qed.

(** X4.  [updateCanvasData] returns on every frame and touches nothing
    but the pixels it encodes: the store keeps its length, every byte from
    [4 * ceil(depth.length / 2)] on keeps its value, each byte before is
    the clamped channel of its sample, and the stored frames, the counter
    and the pending callbacks are left as they were. *)
Theorem updateCanvasData_frame (this : meshFromKinect) (depth : list byte) :
  exists data,
    updateCanvasData this depth =
      Returned (MeshFromKinect data true (prevCanvasData this)
                  (newCanvasData this) (fadeCnt this)
                  (animationFrames this)) /\
    length data = length (imageData this) /\
    (forall x, (4 * pixels (length depth) <= x)%nat ->
       data !! x = imageData this !! x) /\
    (forall m ch,
       (2 * m < length depth)%nat -> (ch < 4)%nat ->
       (4 * m + ch < length (imageData this))%nat ->
       data !! (4 * m + ch)%nat =
       Some (Num.toUint8Clamp (channel (update_px depth m) ch))).
Proof.
  rewrite updateCanvasData_eq. eexists. split; [reflexivity|].
  split; [apply length_painted|].
  split.
  - intros x Hx. apply lookup_painted_rest. exact Hx.
  - intros m ch Hm Hch Hlen.
    apply (lookup_painted_pixel (update_px depth)); [|assumption..].
    apply pixels_lt. exact Hm.
Qed.

(** X5.  A frame with more samples than the store has pixels is cut
    silently: whatever lies beyond the first [2n] bytes of [depth], where
    the store holds at most [n] pixels, has no effect on the result. *)
Theorem updateCanvasData_oversized (this : meshFromKinect)
    (depth : list byte) (n : nat) :
  (length (imageData this) <= 4 * n)%nat ->
  updateCanvasData this depth = updateCanvasData this (take (2 * n) depth).
Proof.
  intros Hlen. rewrite !updateCanvasData_eq. f_equal. f_equal.
  apply list_eq; intros x. rewrite !lookup_painted.
  destruct (imageData this !! x) as [old|] eqn:Hx;
    cbv [fmap option_fmap option_map]; [|reflexivity].
  assert (Hxn : (x < 4 * n)%nat).
  { apply lookup_lt_Some in Hx. lia. }
  assert (Hm : (x / 4 < n)%nat).
  { apply Nat.Div0.div_lt_upper_bound. lia. }
  rewrite length_take.
  rewrite (update_px_take depth n (x / 4) Hm).
  destruct (Nat.le_gt_cases (length depth) (2 * n)) as [Hle|Hgt].
  - rewrite Nat.min_r by lia. reflexivity.
  - rewrite Nat.min_l by lia.
    assert (Hn : (n <= pixels (length depth))%nat).
    { destruct n as [|n']; [lia|].
      assert (n' < pixels (length depth))%nat by (apply pixels_lt; lia).
      lia. }
    assert (Hp : pixels (2 * n) = n).
    { unfold pixels. symmetry. apply (Nat.div_unique _ 2 n 1); lia. }
    rewrite Hp.
    destruct (Nat.ltb_spec x (4 * pixels (length depth))); [|lia].
    destruct (Nat.ltb_spec x (4 * n)); [reflexivity|lia].
Qed.

Lemma updateCanvasData_oversized_witness :
  updateCanvasData (idle 1 [x00; x04]) [x00; x02; x00; x08] =
  updateCanvasData (idle 1 [x00; x04])
    (take (2 * 1) [x00; x02; x00; x08]).
Proof.
  apply (updateCanvasData_oversized (idle 1 [x00; x04])
           [x00; x02; x00; x08] 1).
  cbn. lia.
Defined.

(** X6.  [updateCanvasData] keeps nothing of an earlier call that encoded
    no more samples: calling it with [a] and then with [b] gives the object
    that calling it with [b] alone gives. *)
Theorem updateCanvasData_overwrites (this : meshFromKinect)
    (a b : list byte) :
  (pixels (length a) <= pixels (length b))%nat ->
  exists this1,
    updateCanvasData this a = Returned this1 /\
    updateCanvasData this1 b = updateCanvasData this b.
Proof.
  intros Hab. rewrite (updateCanvasData_eq this a).
  eexists. split; [reflexivity|].
  rewrite !updateCanvasData_eq.
  cbn [imageData prevCanvasData newCanvasData fadeCnt animationFrames].
  rewrite painted_absorb by exact Hab. reflexivity.
Qed.

Lemma updateCanvasData_overwrites_witness :
  exists this1,
    updateCanvasData (idle 2 [x00; x04]) [x00; x02] = Returned this1 /\
    updateCanvasData this1 [x00; x01; x00; x08] =
    updateCanvasData (idle 2 [x00; x04]) [x00; x01; x00; x08].
Proof.
  apply (updateCanvasData_overwrites (idle 2 [x00; x04])
           [x00; x02] [x00; x01; x00; x08]).
  vm_compute. lia.
Defined.

(** X7.  Nothing clears the store: after a frame [a] and then a shorter
    frame [b], every pixel of [a] past the end of [b] is still shown. *)
Theorem updateCanvasData_stale_tail (this this1 this2 : meshFromKinect)
    (a b : list byte) (m ch : nat) :
  updateCanvasData this a = Returned this1 ->
  updateCanvasData this1 b = Returned this2 ->
  (length b <= 2 * m)%nat -> (2 * m < length a)%nat ->
  (ch < 4)%nat -> (4 * m + ch < length (imageData this))%nat ->
  imageData this2 !! (4 * m + ch)%nat =
  Some (Num.toUint8Clamp (channel (update_px a m) ch)) /\
  imageData this2 !! (4 * m + ch)%nat = imageData this1 !! (4 * m + ch)%nat.
Proof.
  intros H1 H2 Hb Ha Hch Hlen.
  rewrite updateCanvasData_eq in H1. injection H1 as <-.
  rewrite updateCanvasData_eq in H2. injection H2 as <-.
  cbn [imageData].
  assert (Hrest : (4 * pixels (length b) <= 4 * m + ch)%nat).
  { destruct (Nat.le_gt_cases (pixels (length b)) m) as [?|Hgt]; [lia|].
    apply pixels_lt in Hgt. lia. }
  rewrite lookup_painted_rest by exact Hrest.
  split; [|reflexivity].
  apply (lookup_painted_pixel (update_px a)); [|assumption..].
  apply pixels_lt. exact Ha.
Qed.

Lemma updateCanvasData_stale_tail_witness :
  imageData
    (object_of
       (updateCanvasData
          (object_of
             (updateCanvasData (idle 2 [x00; x04]) [x00; x01; x00; x08]))
          [x00; x02]))
    !! (4 * 1 + 0)%nat =
  Some (Num.toUint8Clamp
          (channel (update_px [x00; x01; x00; x08] 1) 0)) /\
  imageData
    (object_of
       (updateCanvasData
          (object_of
             (updateCanvasData (idle 2 [x00; x04]) [x00; x01; x00; x08]))
          [x00; x02]))
    !! (4 * 1 + 0)%nat =
  imageData
    (object_of (updateCanvasData (idle 2 [x00; x04]) [x00; x01; x00; x08]))
    !! (4 * 1 + 0)%nat.
Proof.
  apply (updateCanvasData_stale_tail (idle 2 [x00; x04])
           (object_of
              (updateCanvasData (idle 2 [x00; x04]) [x00; x01; x00; x08]))
           (object_of
              (updateCanvasData
                 (object_of
                    (updateCanvasData (idle 2 [x00; x04])
                       [x00; x01; x00; x08]))
                 [x00; x02]))
           [x00; x01; x00; x08] [x00; x02] 1 0);
    try reflexivity; cbn; lia.
Defined.

(** X8.  What [updateCanvasData] paints in the middle of a fade is gone
    with the next animation frame: when the frame given has no more
    samples than the fade's previous frame, the pending callback leaves
    the object it would have left without the call. *)
Theorem updateCanvasData_lost_in_fade (this : meshFromKinect)
    (prev nw depth : list byte) (f : nat) :
  prevCanvasData this = JArray prev ->
  newCanvasData this = JArray nw ->
  fadeCnt this <> 0 ->
  animationFrames this = S f ->
  (pixels (length depth) <= pixels (length prev))%nat ->
  exists this1,
    updateCanvasData this depth = Returned this1 /\
    animationFrame this1 = animationFrame this.
Proof.
  intros Hp Hn Hk Hf Hlen. rewrite updateCanvasData_eq.
  eexists. split; [reflexivity|].
  rewrite (animationFrame_eq _ prev nw f)
    by (cbn [prevCanvasData newCanvasData fadeCnt animationFrames];
        assumption).
  rewrite (animationFrame_eq this prev nw f) by assumption.
  rewrite (blend_pass_eq _ prev nw)
    by (cbn [set_animationFrames prevCanvasData newCanvasData]; assumption).
  rewrite (blend_pass_eq (set_animationFrames f this) prev nw)
    by (cbn [set_animationFrames prevCanvasData newCanvasData]; assumption).
  cbn [set_animationFrames imageData fadeCnt animationFrames].
  rewrite painted_absorb by exact Hlen. reflexivity.
Qed.

Lemma updateCanvasData_lost_in_fade_witness :
  exists this1,
    updateCanvasData (fading 1 [x00; x04] [x00; x02] 3) [x00; x08]
      = Returned this1 /\
    animationFrame this1 =
    animationFrame (fading 1 [x00; x04] [x00; x02] 3).
Proof.
  apply (updateCanvasData_lost_in_fade (fading 1 [x00; x04] [x00; x02] 3)
           [x00; x04] [x00; x02] [x00; x08] 0);
    try reflexivity; cbn; lia.
Defined.

(* ===================================================================== *)
(** ** What the stored pixel says about the sample *)
(* ===================================================================== *)

Lemma saturated_checked : all_in 2046 65535 saturated_check = true.
Proof. vm_cast_no_check (eq_refl true). Qed.

Lemma rank_step_checked : all_in 0 2044 rank_step_check = true.
Proof. vm_cast_no_check (eq_refl true). Qed.

Lemma rank_gap_checked : all_in 0 2040 rank_gap_check = true.
Proof. vm_cast_no_check (eq_refl true). Qed.

Lemma update_px_stored (a : list byte) (m : nat) :
  fst (stored (sample_total a (2 * m))) =
    Num.toUint8Clamp (channel (update_px a m) 0) /\
  snd (stored (sample_total a (2 * m))) =
    Num.toUint8Clamp (channel (update_px a m) 1) /\
  channel (update_px a m) 2 = channel (update_px a m) 1 /\
  channel (update_px a m) 3 = 255%float.
Proof.
  unfold stored, update_px, update_pixel.
  destruct (update_vals (sample_total a (2 * m))) as [v1 v2].
  repeat split; reflexivity.
Qed.

Lemma saturated (t : Z) :
  2046 <= t <= 65535 -> fst (stored t) = 0 /\ snd (stored t) = 255.
Proof.
  intros Ht.
  pose proof (all_in_spec 2046 65535 saturated_check saturated_checked t Ht)
    as Hs.
  unfold saturated_check in Hs.
  apply andb_prop in Hs as [Hr0 Hg0].
  apply Z.eqb_eq in Hr0, Hg0. split; assumption.
Qed.

Lemma rank_monotone (t : Z) (n : nat) :
  0 <= t -> t + Z.of_nat n <= 2045 ->
  rank (stored t) <= rank (stored (t + Z.of_nat n)).
Proof.
  intros Ht. induction n as [|n IH]; intros Hn.
  - rewrite Z.add_0_r. lia.
  - pose proof (all_in_spec 0 2044 rank_step_check rank_step_checked
                  (t + Z.of_nat n) ltac:(lia)) as Hs.
    unfold rank_step_check in Hs. apply Z.leb_le in Hs.
    replace (t + Z.of_nat (S n)) with (t + Z.of_nat n + 1) by lia.
    specialize (IH ltac:(lia)). lia.
Qed.

Lemma rank_apart (t1 t2 : Z) :
  0 <= t1 -> t1 + 5 <= t2 -> t2 <= 2045 ->
  rank (stored t1) < rank (stored t2).
Proof.
  intros H1 H12 H2.
  pose proof (all_in_spec 0 2040 rank_gap_check rank_gap_checked t1
                ltac:(lia)) as Hg.
  unfold rank_gap_check in Hg. apply Z.ltb_lt in Hg.
  pose proof (rank_monotone (t1 + 5) (Z.to_nat (t2 - t1 - 5))
                ltac:(lia) ltac:(lia)) as Hm.
  replace (t1 + 5 + Z.of_nat (Z.to_nat (t2 - t1 - 5))) with t2 in Hm by lia.
  lia.
Qed.

Lemma stored_1024 (ch : nat) :
  (ch < 4)%nat ->
  Num.toUint8Clamp (channel (update_px [x00; x04] 0) ch) =
  (if (ch =? 0)%nat then 0 else 255).
Proof.
  intros Hch. destruct ch as [|[|[|[|ch]]]]; [| | | |lia];
    vm_compute; reflexivity.
Qed.

Lemma stored_255_259 (ch : nat) :
  Num.toUint8Clamp (channel (update_px [xff; x00] 0) ch) =
  Num.toUint8Clamp (channel (update_px [x03; x01] 0) ch).
Proof.
  destruct ch as [|[|[|ch]]]; vm_compute; reflexivity.
Qed.

Lemma toUint8Clamp_255 : Num.toUint8Clamp 255 = 255.
Proof. vm_cast_no_check (eq_refl 255). Qed.

(** X9.  Every sample of 2046 or more is stored as the pixel
    (0, 255, 255, 255), the pixel of a sample of 1024: beyond 2045 the
    image cannot tell a depth from the middle of the range. *)
Theorem far_samples_saturate (a : list byte) (m ch : nat) :
  2046 <= sample_total a (2 * m) ->
  (ch < 4)%nat ->
  Num.toUint8Clamp (channel (update_px a m) ch) =
    (if (ch =? 0)%nat then 0 else 255) /\
  Num.toUint8Clamp (channel (update_px a m) ch) =
    Num.toUint8Clamp (channel (update_px [x00; x04] 0) ch).
Proof.
  intros Ht Hch.
  pose proof (sample_total_range a (2 * m)) as Hr.
  destruct (saturated (sample_total a (2 * m)) ltac:(lia)) as [Hr0 Hg0].
  destruct (update_px_stored a m) as (H0 & H1 & H2 & H3).
  rewrite H0 in Hr0. rewrite H1 in Hg0.
  assert (Hv : Num.toUint8Clamp (channel (update_px a m) ch) =
               (if (ch =? 0)%nat then 0 else 255)).
  { destruct ch as [|[|[|[|ch]]]]; [exact Hr0|exact Hg0| | |lia].
    - rewrite H2. exact Hg0.
    - rewrite H3. exact toUint8Clamp_255. }
  split; [exact Hv|]. rewrite Hv.
  symmetry. apply stored_1024. exact Hch.
Qed.

Lemma far_samples_saturate_witness :
  Num.toUint8Clamp (channel (update_px [xff; xff] 0) 1) =
    (if (1 =? 0)%nat then 0 else 255) /\
  Num.toUint8Clamp (channel (update_px [xff; xff] 0) 1) =
    Num.toUint8Clamp (channel (update_px [x00; x04] 0) 1).
Proof.
  apply (far_samples_saturate [xff; xff] 0 1); [vm_compute; discriminate|lia].
Defined.

(** X10.  Below that the image keeps the depth up to 4 units: two samples
    of at most 2045 that are stored as the same pixel differ by at most 4,
    and 255 and 259 are stored as the same pixel. *)
Theorem stored_pixel_resolution (a b : list byte) (m n : nat) :
  sample_total a (2 * m) <= 2045 ->
  sample_total b (2 * n) <= 2045 ->
  (forall ch, (ch < 4)%nat ->
     Num.toUint8Clamp (channel (update_px a m) ch) =
     Num.toUint8Clamp (channel (update_px b n) ch)) ->
  -4 <= sample_total a (2 * m) - sample_total b (2 * n) <= 4 /\
  (forall ch,
     Num.toUint8Clamp (channel (update_px [xff; x00] 0) ch) =
     Num.toUint8Clamp (channel (update_px [x03; x01] 0) ch)).
Proof.
  intros Ha Hb Heq.
  pose proof (sample_total_range a (2 * m)) as Hra.
  pose proof (sample_total_range b (2 * n)) as Hrb.
  destruct (update_px_stored a m) as (Ha0 & Ha1 & _ & _).
  destruct (update_px_stored b n) as (Hb0 & Hb1 & _ & _).
  assert (Hst : stored (sample_total a (2 * m)) =
                stored (sample_total b (2 * n))).
  { rewrite (surjective_pairing (stored (sample_total a (2 * m)))).
    rewrite (surjective_pairing (stored (sample_total b (2 * n)))).
    rewrite Ha0, Ha1, Hb0, Hb1, (Heq 0%nat), (Heq 1%nat) by lia.
    reflexivity. }
  split.
  - destruct (Z_lt_le_dec 4 (sample_total a (2 * m) - sample_total b (2 * n)))
      as [Hgt|Hle].
    + pose proof (rank_apart (sample_total b (2 * n))
                    (sample_total a (2 * m))
                    ltac:(lia) ltac:(lia) ltac:(lia)) as H.
      rewrite Hst in H. lia.
    + destruct (Z_lt_le_dec 4
                  (sample_total b (2 * n) - sample_total a (2 * m)))
        as [Hgt|Hle'].
      * pose proof (rank_apart (sample_total a (2 * m))
                      (sample_total b (2 * n))
                      ltac:(lia) ltac:(lia) ltac:(lia)) as H.
        rewrite Hst in H. lia.
      * lia.
  - exact stored_255_259.
Qed.

Lemma stored_pixel_resolution_witness :
  -4 <= sample_total [xff; x00] (2 * 0) - sample_total [x03; x01] (2 * 0)
     <= 4 /\
  (forall ch,
     Num.toUint8Clamp (channel (update_px [xff; x00] 0) ch) =
     Num.toUint8Clamp (channel (update_px [x03; x01] 0) ch)).
Proof.
  apply (stored_pixel_resolution [xff; x00] [x03; x01] 0 0).
  - vm_compute. discriminate.
  - vm_compute. discriminate.
  - intros ch _. apply stored_255_259.
Defined.

(* ===================================================================== *)
(** ** [_geometry]: what the loops leave in [indices] and [colors] *)
(* ===================================================================== *)

Lemma length_filled {A : Type} (f : nat -> A) (n : nat) (data : list A) :
  length (filled f n data) = length data.
Proof. unfold filled. apply length_imap. Qed.

Lemma lookup_filled {A : Type} (f : nat -> A) (n : nat) (data : list A)
    (x : nat) :
  (x < n)%nat -> (x < length data)%nat -> filled f n data !! x = Some (f x).
Proof.
  intros Hn Hx. unfold filled. rewrite list_lookup_imap.
  destruct (lookup_lt_is_Some_2 data x Hx) as [old ->].
  cbv [fmap option_fmap option_map].
  destruct (Nat.ltb_spec x n); [reflexivity|lia].
Qed.

Lemma filled_0 {A : Type} (f : nat -> A) (data : list A) :
  filled f 0 data = data.
Proof.
  apply list_eq; intros x. unfold filled. rewrite list_lookup_imap.
  destruct (data !! x); reflexivity.
Qed.

Lemma filled_step {A : Type} (f : nat -> A) (n m : nat) (v : A)
    (data : list A) :
  f n = v -> m = S n ->
  <[n := v]> (filled f n data) = filled f m data.
Proof.
  intros <- ->. apply list_eq; intros x.
  unfold filled.
  destruct (Nat.eq_dec n x) as [->|Hne].
  - rewrite list_lookup_imap.
    destruct (data !! x) as [old|] eqn:Hx.
    + rewrite list_lookup_insert_eq
        by (rewrite length_imap; apply lookup_lt_Some in Hx; exact Hx).
      cbv [fmap option_fmap option_map].
      destruct (Nat.ltb_spec x (S x)); [reflexivity|lia].
    + apply lookup_ge_None_2. rewrite length_insert, length_imap.
      apply lookup_ge_None_1 in Hx. exact Hx.
  - rewrite list_lookup_insert_ne by exact Hne.
    rewrite !list_lookup_imap.
    destruct (data !! x); cbv [fmap option_fmap option_map]; [|reflexivity].
    destruct (Nat.ltb_spec x n), (Nat.ltb_spec x (S n));
      try reflexivity; lia.
Qed.

Lemma slot_div (w c j : nat) :
  (j < w)%nat -> ((w * c + j) / w = c)%nat /\ ((w * c + j) mod w = j)%nat.
Proof.
  intros Hj. split.
  - symmetry. apply (Nat.div_unique _ w c j); lia.
  - symmetry. apply (Nat.mod_unique _ w c j); lia.
Qed.

Lemma cell_position (gridX ix iy : Z) (c : nat) :
  0 <= ix < gridX -> Z.of_nat c = ix + gridX * iy ->
  Z.of_nat c mod gridX = ix /\ Z.of_nat c / gridX = iy.
Proof.
  intros Hix Hc. rewrite Hc. split.
  - symmetry. apply (Z.mod_unique _ gridX iy ix); lia.
  - symmetry. apply (Z.div_unique _ gridX iy ix); lia.
Qed.

Lemma corner_cell (gridX ix iy : Z) (c j : nat) :
  0 <= ix < gridX -> Z.of_nat c = ix + gridX * iy -> (j < 6)%nat ->
  corner gridX (6 * c + j) =
  match j with
  | 0%nat => ix + (gridX + 1) * iy
  | 1%nat | 3%nat => ix + (gridX + 1) * (iy + 1)
  | 4%nat => (ix + 1) + (gridX + 1) * (iy + 1)
  | _ => (ix + 1) + (gridX + 1) * iy
  end.
Proof.
  intros Hix Hc Hj. unfold corner.
  destruct (slot_div 6 c j Hj) as [-> ->].
  destruct (cell_position gridX ix iy c Hix Hc) as [-> ->].
  reflexivity.
Qed.

Lemma corner_range (gridX : Z) (x : nat) :
  1 <= gridX ->
  (x < 6 * Z.to_nat (gridX * gridX))%nat ->
  0 <= corner gridX x < (gridX + 1) * (gridX + 1).
Proof.
  intros Hg Hx.
  assert (Hc : (x / 6 < Z.to_nat (gridX * gridX))%nat)
    by (apply Nat.Div0.div_lt_upper_bound; exact Hx).
  assert (Hc' : 0 <= Z.of_nat (x / 6) < gridX * gridX) by lia.
  pose proof (Z.mod_pos_bound (Z.of_nat (x / 6)) gridX ltac:(lia)) as Hix.
  assert (Hiy : 0 <= Z.of_nat (x / 6) / gridX < gridX).
  { split; [apply Z.div_pos; lia|].
    apply Z.div_lt_upper_bound; lia. }
  unfold corner.
  set (ix := Z.of_nat (x / 6) mod gridX) in *.
  set (iy := Z.of_nat (x / 6) / gridX) in *.
  destruct (x mod 6)%nat as [|[|[|[|[|j]]]]]; nia.
Qed.

Lemma index_fits (gridX v : Z) :
  1 <= gridX <= 65535 ->
  0 <= v < (gridX + 1) * (gridX + 1) ->
  v mod 2 ^ index_bits ((gridX + 1) * (gridX + 1) * 3) = v.
Proof.
  intros Hg Hv. apply Z.mod_small. unfold index_bits.
  rewrite Z.div_mul by lia.
  destruct (Z.gtb_spec ((gridX + 1) * (gridX + 1)) 65535).
  - change (2 ^ 32) with 4294967296. nia.
  - change (2 ^ 16) with 65536. lia.
Qed.

Section ColorsFacts.

Context {V : Type} (zero : V) (component : nat -> nat -> V).

Lemma color_slot (c j : nat) :
  (j < 12)%nat ->
  component ((12 * c + j) / 12)%nat ((12 * c + j) mod 3)%nat =
  component c (j mod 3)%nat.
Proof.
  intros Hj. destruct (slot_div 12 c j Hj) as [-> _].
  replace (12 * c + j)%nat with (j + (4 * c) * 3)%nat by lia.
  rewrite Nat.Div0.mod_add. reflexivity.
Qed.

Lemma cell_after_cells (bits gridX ix iy : Z) (c : nat)
    (indices0 : list Z) (colors0 : list V) :
  0 <= ix < gridX -> Z.of_nat c = ix + gridX * iy ->
  cell component bits (gridX + 1) ix iy
    (after_cells component bits gridX c indices0 colors0) =
  after_cells component bits gridX (S c) indices0 colors0.
Proof.
  intros Hix Hc. unfold cell, after_cells, store_index.
  cbn [offset offset2 made indices colors].
  f_equal; [lia|lia| |].
  - rewrite (filled_step _ (6 * c) (6 * c + 1))
      by (first [lia | replace (6 * c)%nat with (6 * c + 0)%nat at 1 by lia;
                       rewrite (corner_cell gridX ix iy c 0 Hix Hc) by lia;
                       reflexivity]).
    rewrite (filled_step _ (6 * c + 1) (6 * c + 2))
      by (first [lia | rewrite (corner_cell gridX ix iy c 1 Hix Hc) by lia;
                       reflexivity]).
    rewrite (filled_step _ (6 * c + 2) (6 * c + 3))
      by (first [lia | rewrite (corner_cell gridX ix iy c 2 Hix Hc) by lia;
                       reflexivity]).
    rewrite (filled_step _ (6 * c + 3) (6 * c + 4))
      by (first [lia | rewrite (corner_cell gridX ix iy c 3 Hix Hc) by lia;
                       reflexivity]).
    rewrite (filled_step _ (6 * c + 4) (6 * c + 5))
      by (first [lia | rewrite (corner_cell gridX ix iy c 4 Hix Hc) by lia;
                       reflexivity]).
    apply filled_step; [|lia].
    rewrite (corner_cell gridX ix iy c 5 Hix Hc) by lia. reflexivity.
  - rewrite (filled_step _ (12 * c) (12 * c + 1))
      by (first [lia | replace (12 * c)%nat with (12 * c + 0)%nat by lia;
                       apply (color_slot c 0); lia]).
    rewrite (filled_step _ (12 * c + 1) (12 * c + 2))
      by (first [lia | apply (color_slot c 1); lia]).
    rewrite (filled_step _ (12 * c + 2) (12 * c + 3))
      by (first [lia | apply (color_slot c 2); lia]).
    rewrite (filled_step _ (12 * c + 3) (12 * c + 4))
      by (first [lia | apply (color_slot c 3); lia]).
    rewrite (filled_step _ (12 * c + 4) (12 * c + 5))
      by (first [lia | apply (color_slot c 4); lia]).
    rewrite (filled_step _ (12 * c + 5) (12 * c + 6))
      by (first [lia | apply (color_slot c 5); lia]).
    rewrite (filled_step _ (12 * c + 6) (12 * c + 7))
      by (first [lia | apply (color_slot c 6); lia]).
    rewrite (filled_step _ (12 * c + 7) (12 * c + 8))
      by (first [lia | apply (color_slot c 7); lia]).
    rewrite (filled_step _ (12 * c + 8) (12 * c + 9))
      by (first [lia | apply (color_slot c 8); lia]).
    rewrite (filled_step _ (12 * c + 9) (12 * c + 10))
      by (first [lia | apply (color_slot c 9); lia]).
    rewrite (filled_step _ (12 * c + 10) (12 * c + 11))
      by (first [lia | apply (color_slot c 10); lia]).
    apply filled_step; [|lia].
    apply (color_slot c 11). lia.
Qed.

Lemma row_loop_after (fuel : nat) (bits gridX iy : Z)
    (indices0 : list Z) (colors0 : list V) :
  forall (ix : Z) (c : nat),
  0 <= ix <= gridX -> Z.of_nat c = ix + gridX * iy ->
  (Z.to_nat (gridX - ix) <= fuel)%nat ->
  row_loop component fuel bits gridX (gridX + 1) iy ix
    (after_cells component bits gridX c indices0 colors0) =
  after_cells component bits gridX (c + Z.to_nat (gridX - ix)) indices0
    colors0.
Proof.
  induction fuel as [|fuel IH]; intros ix c Hix Hc Hfuel.
  - replace (Z.to_nat (gridX - ix)) with 0%nat by lia.
    rewrite Nat.add_0_r. reflexivity.
  - cbn [row_loop]. destruct (Z.ltb_spec ix gridX) as [Hlt|Hge].
    + rewrite cell_after_cells by (first [lia | exact Hc]).
      rewrite (IH (ix + 1) (S c)) by lia.
      f_equal. lia.
    + replace (Z.to_nat (gridX - ix)) with 0%nat by lia.
      rewrite Nat.add_0_r. reflexivity.
Qed.

Lemma grid_loop_after (fuel : nat) (bits gridX : Z)
    (indices0 : list Z) (colors0 : list V) :
  forall (iy : Z) (c : nat),
  0 <= gridX -> 0 <= iy <= gridX -> Z.of_nat c = gridX * iy ->
  (Z.to_nat (gridX - iy) <= fuel)%nat ->
  grid_loop component fuel bits gridX gridX (gridX + 1) iy
    (after_cells component bits gridX c indices0 colors0) =
  after_cells component bits gridX (Z.to_nat (gridX * gridX)) indices0
    colors0.
Proof.
  induction fuel as [|fuel IH]; intros iy c Hg Hiy Hc Hfuel.
  - assert (iy = gridX) by lia. subst iy. cbn [grid_loop]. f_equal. lia.
  - cbn [grid_loop]. destruct (Z.ltb_spec iy gridX) as [Hlt|Hge].
    + rewrite (row_loop_after _ bits gridX iy indices0 colors0 0 c)
        by lia.
      apply IH; lia.
    + assert (iy = gridX) by lia. subst iy. f_equal. lia.
Qed.

(** The loops of [_geometry] in closed form: they run over every cell of
    a grid of at least one cell, and over none otherwise. *)
Lemma _geometry_eq (polycount : Z) :
  _geometry zero component polycount =
  after_cells component
    (index_bits ((grid polycount + 1) * (grid polycount + 1) * 3))
    (grid polycount)
    (if 0 <? grid polycount
     then Z.to_nat (grid polycount * grid polycount) else 0%nat)
    (replicate (Z.to_nat (grid polycount * grid polycount * 6)) 0)
    (replicate
       (Z.to_nat ((grid polycount + 1) * (grid polycount + 1) * 3)) zero).
Proof.
  unfold _geometry.
  set (g := grid polycount).
  set (bits := index_bits ((g + 1) * (g + 1) * 3)).
  set (indices0 := replicate (Z.to_nat (g * g * 6)) 0).
  set (colors0 := replicate (Z.to_nat ((g + 1) * (g + 1) * 3)) zero).
  assert (H0 : Geometry 0 0 0 indices0 colors0 =
               after_cells component bits g 0 indices0 colors0).
  { unfold after_cells. cbn [Nat.mul]. rewrite !filled_0. reflexivity. }
  rewrite H0.
  destruct (Z.ltb_spec 0 g) as [Hpos|Hneg].
  - apply grid_loop_after; lia.
  - destruct (Z.to_nat g) as [|fuel] eqn:Hfuel; [reflexivity|lia].
Qed.

End ColorsFacts.

(** X11.  On a grid of [g] by [g] cells, [1 <= g <= 65535], the loops
    fill all [6 g^2] slots of [indices]; slot [x] holds the corner the
    cell [x / 6] has there, unchanged by the element type ([Uint16Array]
    up to 65535 vertices, [Uint32Array] above), and that corner is one of
    the [(g + 1)^2] vertices. *)
Theorem geometry_indices {V : Type} (zero : V)
    (component : nat -> nat -> V) (polycount : Z) (x : nat) :
  1 <= grid polycount <= 65535 ->
  (x < 6 * Z.to_nat (grid polycount * grid polycount))%nat ->
  length (indices (_geometry zero component polycount)) =
    (6 * Z.to_nat (grid polycount * grid polycount))%nat /\
  indices (_geometry zero component polycount) !! x =
    Some (corner (grid polycount) x) /\
  0 <= corner (grid polycount) x <
    (grid polycount + 1) * (grid polycount + 1).
Proof.
  intros Hg Hx. rewrite _geometry_eq.
  destruct (Z.ltb_spec 0 (grid polycount)); [|lia].
  unfold after_cells. cbn [indices].
  pose proof (corner_range (grid polycount) x ltac:(lia) Hx) as Hc.
  split; [|split; [|exact Hc]].
  - rewrite length_filled, length_replicate. lia.
  - rewrite lookup_filled by (first [exact Hx | rewrite length_replicate; lia]).
    rewrite index_fits by assumption. reflexivity.
Qed.


Lemma geometry_indices_witness :
  length (indices (_geometry 0 (fun n k => Z.of_nat (3 * n + k)) 10)) =
    (6 * Z.to_nat (grid 10 * grid 10))%nat /\
  indices (_geometry 0 (fun n k => Z.of_nat (3 * n + k)) 10) !! 64%nat =
    Some (corner (grid 10) 64) /\
  0 <= corner (grid 10) 64 < (grid 10 + 1) * (grid 10 + 1).
Proof.
  apply (geometry_indices 0 (fun n k => Z.of_nat (3 * n + k)) 10 64).
  - vm_compute. split; discriminate.
  - vm_compute. lia.
Defined.


(* ===================================================================== *)
(** ** [_material]: which uniform a name ends up with *)
(* ===================================================================== *)

Lemma lookup_set_property (name key : string) (u : uniform)
    (unis : uniforms_object) :
  own (set_property name u unis) !! key =
  if String.eqb name key && negb (String.eqb key "__proto__")
  then Some u else own unis !! key.
Proof.
  unfold set_property.
  destruct (String.eqb name "__proto__") eqn:Hn; cbn [own].
  - apply String.eqb_eq in Hn. subst name.
    destruct (String.eqb "__proto__" key) eqn:Hk; [|reflexivity].
    apply String.eqb_eq in Hk. subst key. reflexivity.
  - destruct (String.eqb name key) eqn:Hk.
    + apply String.eqb_eq in Hk. subst key.
      rewrite lookup_insert_eq, Hn. reflexivity.
    + apply String.eqb_neq in Hk.
      rewrite lookup_insert_ne by exact Hk. reflexivity.
Qed.

Lemma prototype_set_property (name : string) (u : uniform)
    (unis : uniforms_object) :
  prototype (set_property name u unis) =
  if String.eqb name "__proto__" then Some u else prototype unis.
Proof.
  unfold set_property. destruct (String.eqb name "__proto__"); reflexivity.
Qed.

Lemma uniforms_loop_lookup (uniforms : list entry) :
  forall unis : uniforms_object,
  forallb complete uniforms = true ->
  exists unis',
    uniforms_loop uniforms unis = Some unis' /\
    (forall key,
       own unis' !! key =
       if String.eqb key "__proto__" then own unis !! key
       else match latest key uniforms with
            | Some u => Some u
            | None => own unis !! key
            end) /\
    prototype unis' =
    match latest "__proto__" uniforms with
    | Some p => Some p
    | None => prototype unis
    end.
Proof.
  induction uniforms as [|e rest IH]; intros unis Hall.
  - exists unis. split; [reflexivity|]. split; [|reflexivity].
    intros key. destruct (String.eqb key "__proto__"); reflexivity.
  - cbn [forallb] in Hall. apply andb_prop in Hall as [He Hrest].
    unfold complete in He. cbn [uniforms_loop latest].
    destruct (entry_name e) as [n|]; [|discriminate].
    destruct (entry_type e) as [ty|]; [|discriminate].
    destruct (entry_value e) as [v|]; [|discriminate].
    destruct (IH (set_property n (Uniform ty v) unis) Hrest)
      as (unis' & Hrun & Hown & Hproto).
    exists unis'. split; [exact Hrun|]. split.
    + intros key. rewrite (Hown key), lookup_set_property.
      destruct (String.eqb key "__proto__") eqn:Hkey.
      * cbn [negb]. rewrite andb_false_r. reflexivity.
      * cbn [negb]. rewrite andb_true_r.
        destruct (latest key rest); [reflexivity|].
        destruct (String.eqb n key); reflexivity.
    + rewrite Hproto, prototype_set_property.
      destruct (latest "__proto__" rest); [reflexivity|].
      destruct (String.eqb n "__proto__"); reflexivity.
Qed.

(** X13.  When every element of [this.uniforms] has a name, a type and a
    value, [_material] throws nothing and leaves this object.  Its own
    properties: under a name other than [__proto__], what the last element
    of that name says, and where no element has the name, what the four
    uniforms of the method say, so an element named [map], [width],
    [height] or [pointsize] replaces the method's own; under [__proto__],
    nothing.  Its prototype: the [{ type, value }] of the last element
    named [__proto__], if there is one.  So a name without an own
    property reads from that prototype, [type] and [value] included. *)
Theorem material_last_wins (texture pointsize width height : value)
    (uniforms : list entry) :
  forallb complete uniforms = true ->
  exists unis,
    _material texture pointsize width height (Some uniforms) = Some unis /\
    (forall key,
       own unis !! key =
       if String.eqb key "__proto__" then None
       else match latest key uniforms with
            | Some u => Some u
            | None => own (unis0 texture width height pointsize) !! key
            end) /\
    prototype unis = latest "__proto__" uniforms /\
    (forall key,
       read_property unis key =
       match own unis !! key with
       | Some u => OwnProperty u
       | None =>
           match latest "__proto__" uniforms with
           | Some p =>
               if String.eqb key "type" then Inherited (uniform_type p)
               else if String.eqb key "value"
                    then Inherited (uniform_value p)
                    else FromObjectPrototype
           | None => FromObjectPrototype
           end
       end).
Proof.
  intros Hall. unfold _material.
  destruct (uniforms_loop_lookup uniforms
              (unis0 texture width height pointsize) Hall)
    as (unis & Hrun & Hown & Hproto).
  assert (Hp : prototype unis = latest "__proto__" uniforms).
  { rewrite Hproto. cbn [unis0 prototype].
    destruct (latest "__proto__" uniforms); reflexivity. }
  exists unis. split; [exact Hrun|]. split; [|split; [exact Hp|]].
  - intros key. rewrite (Hown key).
    destruct (String.eqb key "__proto__") eqn:Hkey; [|reflexivity].
    apply String.eqb_eq in Hkey. subst key. reflexivity.
  - intros key. unfold read_property. rewrite Hp. reflexivity.
Qed.

Lemma material_last_wins_witness :
  exists unis,
    _material (VObject 0) (VNumber 1) (VNumber 640) (VNumber 480)
      (Some [Entry (Some "time") (Some (VString "f")) (Some (VNumber 0));
             Entry (Some "map") (Some (VString "t")) (Some (VObject 7));
             Entry (Some "__proto__") (Some (VString "f"))
               (Some (VNumber 1));
             Entry (Some "time") (Some (VString "f")) (Some (VNumber 1))])
      = Some unis /\
    (forall key,
       own unis !! key =
       if String.eqb key "__proto__" then None
       else match
              latest key
                [Entry (Some "time") (Some (VString "f"))
                   (Some (VNumber 0));
                 Entry (Some "map") (Some (VString "t"))
                   (Some (VObject 7));
                 Entry (Some "__proto__") (Some (VString "f"))
                   (Some (VNumber 1));
                 Entry (Some "time") (Some (VString "f"))
                   (Some (VNumber 1))]
            with
            | Some u => Some u
            | None =>
                own (unis0 (VObject 0) (VNumber 640) (VNumber 480)
                       (VNumber 1)) !! key
            end) /\
    prototype unis =
      latest "__proto__"
        [Entry (Some "time") (Some (VString "f")) (Some (VNumber 0));
         Entry (Some "map") (Some (VString "t")) (Some (VObject 7));
         Entry (Some "__proto__") (Some (VString "f")) (Some (VNumber 1));
         Entry (Some "time") (Some (VString "f")) (Some (VNumber 1))] /\
    (forall key,
       read_property unis key =
       match own unis !! key with
       | Some u => OwnProperty u
       | None =>
           match
             latest "__proto__"
               [Entry (Some "time") (Some (VString "f"))
                  (Some (VNumber 0));
                Entry (Some "map") (Some (VString "t"))
                  (Some (VObject 7));
                Entry (Some "__proto__") (Some (VString "f"))
                  (Some (VNumber 1));
                Entry (Some "time") (Some (VString "f"))
                  (Some (VNumber 1))]
           with
           | Some p =>
               if String.eqb key "type" then Inherited (uniform_type p)
               else if String.eqb key "value"
                    then Inherited (uniform_value p)
                    else FromObjectPrototype
           | None => FromObjectPrototype
           end
       end).
Proof.
  apply (material_last_wins (VObject 0) (VNumber 1) (VNumber 640)
           (VNumber 480)
           [Entry (Some "time") (Some (VString "f")) (Some (VNumber 0));
            Entry (Some "map") (Some (VString "t")) (Some (VObject 7));
            Entry (Some "__proto__") (Some (VString "f"))
              (Some (VNumber 1));
            Entry (Some "time") (Some (VString "f")) (Some (VNumber 1))]).
  reflexivity.
Defined.

(** An element named [__proto__] is read back through the prototype: with
    [this.uniforms = [{ name: "__proto__", type: "f", value: 1 }]] the
    object has its four own properties and no other, and [unis.type]
    reads ["f"]. *)
Example material_proto_entry :
  exists unis,
    _material (VObject 0) (VNumber 1) (VNumber 640) (VNumber 480)
      (Some [Entry (Some "__proto__") (Some (VString "f"))
               (Some (VNumber 1))]) = Some unis /\
    own unis = own (unis0 (VObject 0) (VNumber 640) (VNumber 480)
                      (VNumber 1)) /\
    read_property unis "type" = Inherited (VString "f") /\
    read_property unis "value" = Inherited (VNumber 1) /\
    read_property unis "map" =
      OwnProperty (Uniform (VString "t") (VObject 0)).
Proof.
  eexists. split; [reflexivity|].
  split; [reflexivity|]. repeat split; vm_compute; reflexivity.
Qed.



(* ===================================================================== *)
(** ** [_createMesh]: polling for the shaders *)
(* ===================================================================== *)

Section CreateMeshFacts.

Context {V : Type} (zero : V) (component : nat -> nat -> V).

Lemma _createMesh_polling (cfg : config) (this : loader) :
  loaded this = false -> scene_children this = [] ->
  timeouts this = 0%nat ->
  polling (loader_of (_createMesh zero component cfg this)).
Proof.
  intros Hl Hc Ht. unfold _createMesh.
  destruct (fragmentShader this), (vertexShader this);
    try (left; cbn [loader_of loaded scene_children timeouts];
         rewrite Ht; repeat split; [assumption..|lia]).
  destruct (mesh_type cfg);
    [|left; cbn [loader_of]; repeat split; [assumption..|lia]].
  destruct (_material _ _ _ _ _);
    [|left; cbn [loader_of]; repeat split; [assumption..|lia]].
  right. cbn [loader_of loaded scene_children timeouts].
  rewrite Hc. repeat split. exact Ht.
Qed.

Lemma handle_polling (cfg : config) (e : event) (this : loader) :
  polling this -> polling (loader_of (handle zero component cfg e this)).
Proof.
  intros Hp. destruct e as [|text|text]; cbn [handle].
  - destruct (timeouts this) as [|n] eqn:Ht; [exact Hp|].
    destruct Hp as [(Hl & Hc & Hle)|(_ & _ & H0)]; [|lia].
    apply _createMesh_polling; cbn [loaded scene_children timeouts];
      [assumption..|lia].
  - exact Hp.
  - exact Hp.
Qed.

Lemma run_polling (cfg : config) (events : list event) :
  forall this, polling this -> polling (run zero component cfg events this).
Proof.
  induction events as [|e events IH]; intros this Hp; [exact Hp|].
  cbn [run fold_left]. apply IH. apply handle_polling. exact Hp.
Qed.

Lemma mesh_type_refused (cfg : config) (s : string) :
  config_type cfg = Some s -> s <> "point"%string -> s <> "mesh"%string ->
  mesh_type cfg = None.
Proof.
  intros Hs Hp Hm. unfold mesh_type. rewrite Hs.
  destruct (String.eqb_spec s "point"); [contradiction|].
  destruct (String.eqb_spec s "mesh"); [contradiction|]. reflexivity.
Qed.

Lemma _createMesh_missing (cfg : config) (this : loader) :
  vertexShader this = None \/ fragmentShader this = None ->
  _createMesh zero component cfg this =
  Created
    (Loader (vertexShader this) (fragmentShader this) (this_mesh this)
       (scene_children this) (loaded this) (S (timeouts this))).
Proof.
  intros Hmissing. unfold _createMesh.
  destruct Hmissing as [H|H]; rewrite H;
    [destruct (fragmentShader this)|]; reflexivity.
Qed.

Lemma _createMesh_refused (cfg : config) (this : loader) (v f : string) :
  mesh_type cfg = None ->
  vertexShader this = Some v -> fragmentShader this = Some f ->
  _createMesh zero component cfg this = ThrewError Error this.
Proof.
  intros Hty Hv Hf. unfold _createMesh. rewrite Hv, Hf, Hty. reflexivity.
Qed.

Lemma _createMesh_built (cfg : config) (this : loader) (v f : string)
    (kind : mesh_kind) (unis : uniforms_object) :
  mesh_type cfg = Some kind ->
  _material (texture cfg) (pointsize cfg) (canvas_width cfg)
    (canvas_height cfg) (uniforms cfg) = Some unis ->
  vertexShader this = Some v -> fragmentShader this = Some f ->
  _createMesh zero component cfg this =
  Created
    (Loader (Some v) (Some f)
       (Some (NewMesh kind (_geometry zero component (polycount cfg)) unis))
       (scene_children this ++
        [NewMesh kind (_geometry zero component (polycount cfg)) unis])
       true (timeouts this)).
Proof.
  intros Hty Hmat Hv Hf. unfold _createMesh.
  rewrite Hv, Hf, Hty, Hmat. reflexivity.
Qed.

Lemma missing_or_both (this : @loader V) :
  (vertexShader this = None \/ fragmentShader this = None) \/
  exists v f, vertexShader this = Some v /\ fragmentShader this = Some f.
Proof.
  destruct (vertexShader this) as [v|]; [|left; left; reflexivity].
  destruct (fragmentShader this) as [f|]; [|left; right; reflexivity].
  right. exists v, f. split; reflexivity.
Qed.

Lemma handle_refused (cfg : config) (e : event) (this : loader) :
  mesh_type cfg = None ->
  refused this -> refused (loader_of (handle zero component cfg e this)).
Proof.
  intros Hty (Hl & Hm & Hc & Ht).
  destruct e as [|text|text]; cbn [handle].
  - destruct Ht as [Ht|(Ht & Hv & Hf)]; rewrite Ht.
    + destruct (missing_or_both this) as [Hmiss|(v & f & Hv & Hf)].
      * rewrite _createMesh_missing by exact Hmiss.
        cbn [loader_of]. unfold refused.
        cbn [loaded this_mesh scene_children timeouts].
        split; [exact Hl|]. split; [exact Hm|]. split; [exact Hc|].
        left. reflexivity.
      * rewrite (_createMesh_refused cfg _ v f Hty) by assumption.
        cbn [loader_of]. unfold refused.
        cbn [loaded this_mesh scene_children timeouts vertexShader
             fragmentShader].
        split; [exact Hl|]. split; [exact Hm|]. split; [exact Hc|].
        right. rewrite Hv, Hf. repeat split; discriminate.
    + cbn [loader_of]. unfold refused.
      split; [exact Hl|]. split; [exact Hm|]. split; [exact Hc|].
      right. repeat split; assumption.
  - cbn [loader_of]. unfold refused.
    cbn [loaded this_mesh scene_children timeouts vertexShader
         fragmentShader].
    split; [exact Hl|]. split; [exact Hm|]. split; [exact Hc|].
    destruct Ht as [Ht|(Ht & Hv & Hf)]; [left; exact Ht|].
    right. repeat split; [exact Ht|discriminate|exact Hf].
  - cbn [loader_of]. unfold refused.
    cbn [loaded this_mesh scene_children timeouts vertexShader
         fragmentShader].
    split; [exact Hl|]. split; [exact Hm|]. split; [exact Hc|].
    destruct Ht as [Ht|(Ht & Hv & Hf)]; [left; exact Ht|].
    right. repeat split; [exact Ht|exact Hv|discriminate].
Qed.

Lemma run_refused (cfg : config) (events : list event) :
  mesh_type cfg = None ->
  forall this, refused this -> refused (run zero component cfg events this).
Proof.
  intros Hty. induction events as [|e events IH]; intros this Hr;
    [exact Hr|].
  cbn [run fold_left]. apply IH. apply handle_refused; assumption.
Qed.

Lemma start_eq (cfg : config) (vertex fragment : option string) :
  start zero component cfg vertex fragment =
  match fragment, vertex with
  | Some _, Some _ =>
      _createMesh zero component cfg
        (Loader vertex fragment None [] false 0)
  | _, _ => Created (Loader vertex fragment None [] false 1)
  end.
Proof.
  unfold start. destruct fragment, vertex; reflexivity.
Qed.

Lemma start_refused (cfg : config) (vertex fragment : option string) :
  mesh_type cfg = None ->
  start zero component cfg vertex fragment =
    match fragment, vertex with
    | Some _, Some _ =>
        ThrewError Error (Loader vertex fragment None [] false 0)
    | _, _ => Created (Loader vertex fragment None [] false 1)
    end /\
  refused (loader_of (start zero component cfg vertex fragment)).
Proof.
  intros Hty. rewrite start_eq.
  destruct fragment as [f|], vertex as [v|];
    try (split; [reflexivity|]; cbn [loader_of]; unfold refused;
         cbn [loaded this_mesh scene_children timeouts];
         repeat split; left; reflexivity).
  rewrite (_createMesh_refused cfg _ v f Hty) by reflexivity.
  split; [reflexivity|]. cbn [loader_of]. unfold refused.
  cbn [loaded this_mesh scene_children timeouts vertexShader
       fragmentShader].
  repeat split. right. repeat split; discriminate.
Qed.

Lemma run_idle (cfg : config) (events : list event) :
  forall this,
  timeouts this = 0%nat ->
  timeouts (run zero component cfg events this) = 0%nat /\
  this_mesh (run zero component cfg events this) = this_mesh this /\
  scene_children (run zero component cfg events this) =
    scene_children this /\
  loaded (run zero component cfg events this) = loaded this.
Proof.
  induction events as [|e events IH]; intros this Ht;
    [repeat split; exact Ht|].
  cbn [run fold_left].
  assert (Hstep :
            timeouts (loader_of (handle zero component cfg e this)) = 0%nat /\
            this_mesh (loader_of (handle zero component cfg e this)) =
              this_mesh this /\
            scene_children (loader_of (handle zero component cfg e this)) =
              scene_children this /\
            loaded (loader_of (handle zero component cfg e this)) =
              loaded this).
  { destruct e as [|text|text]; cbn [handle]; try rewrite Ht;
      cbn [loader_of timeouts this_mesh scene_children loaded];
      repeat split; exact Ht. }
  destruct Hstep as (H0 & H1 & H2 & H3).
  destruct (IH _ H0) as (I0 & I1 & I2 & I3). unfold run in *.
  rewrite I0, I1, I2, I3, H1, H2, H3. repeat split.
Qed.

Lemma handle_building (cfg : config) (e : event) (this : loader)
    (kind : mesh_kind) (unis : uniforms_object) :
  mesh_type cfg = Some kind ->
  _material (texture cfg) (pointsize cfg) (canvas_width cfg)
    (canvas_height cfg) (uniforms cfg) = Some unis ->
  building (NewMesh kind (_geometry zero component (polycount cfg)) unis)
    this ->
  building (NewMesh kind (_geometry zero component (polycount cfg)) unis)
    (loader_of (handle zero component cfg e this)).
Proof.
  intros Hty Hmat Hb.
  destruct e as [|text|text]; cbn [handle];
    [|destruct Hb as [(Hl & Hm & Hc & Ht)|(Hl & Hm & Hc & Ht)];
      [left|right]; cbn [loader_of]; repeat split; assumption..].
  destruct Hb as [(Hl & Hm & Hc & Ht)|(Hl & Hm & Hc & Ht)]; rewrite Ht.
  - destruct (missing_or_both this) as [Hmiss|(v & f & Hv & Hf)].
    + rewrite _createMesh_missing by exact Hmiss.
      left. cbn [loader_of loaded this_mesh scene_children timeouts].
      repeat split; assumption.
    + rewrite (_createMesh_built cfg _ v f kind unis Hty Hmat)
        by assumption.
      right. cbn [loader_of loaded this_mesh scene_children timeouts].
      rewrite Hc. repeat split.
  - right. cbn [loader_of]. repeat split; assumption.
Qed.

Lemma run_building (cfg : config) (events : list event)
    (kind : mesh_kind) (unis : uniforms_object) :
  mesh_type cfg = Some kind ->
  _material (texture cfg) (pointsize cfg) (canvas_width cfg)
    (canvas_height cfg) (uniforms cfg) = Some unis ->
  forall this,
  building (NewMesh kind (_geometry zero component (polycount cfg)) unis)
    this ->
  building (NewMesh kind (_geometry zero component (polycount cfg)) unis)
    (run zero component cfg events this).
Proof.
  intros Hty Hmat. induction events as [|e events IH]; intros this Hb;
    [exact Hb|].
  cbn [run fold_left]. apply IH. apply handle_building; assumption.
Qed.

Lemma start_building (cfg : config) (vertex fragment : option string)
    (kind : mesh_kind) (unis : uniforms_object) :
  mesh_type cfg = Some kind ->
  _material (texture cfg) (pointsize cfg) (canvas_width cfg)
    (canvas_height cfg) (uniforms cfg) = Some unis ->
  start zero component cfg vertex fragment =
    match fragment, vertex with
    | Some _, Some _ =>
        Created
          (Loader vertex fragment
             (Some (NewMesh kind
                      (_geometry zero component (polycount cfg)) unis))
             [NewMesh kind (_geometry zero component (polycount cfg)) unis]
             true 0)
    | _, _ => Created (Loader vertex fragment None [] false 1)
    end /\
  building (NewMesh kind (_geometry zero component (polycount cfg)) unis)
    (loader_of (start zero component cfg vertex fragment)).
Proof.
  intros Hty Hmat. rewrite start_eq.
  destruct fragment as [f|], vertex as [v|];
    try (split; [reflexivity|]; left; cbn [loader_of]; repeat split).
  rewrite (_createMesh_built cfg _ v f kind unis Hty Hmat) by reflexivity.
  cbn [scene_children timeouts app].
  split; [reflexivity|]. right. cbn [loader_of]. repeat split.
Qed.

End CreateMeshFacts.

(** X15.  Whatever the configuration, the way the shaders are given and
    the order of the events after the constructor's call of
    [_createMesh]: the object adds at most one mesh to the scene, it is
    [loaded] exactly when it has added one, at most one callback of
    [setTimeout] is pending, and none once it is [loaded]. *)
Theorem createMesh_once {V : Type} (zero : V) (component : nat -> nat -> V)
    (cfg : config) (vertex fragment : option string)
    (events : list event) :
  (length
     (scene_children
        (run zero component cfg events
           (loader_of (start zero component cfg vertex fragment)))) <= 1)%nat /\
  (timeouts
     (run zero component cfg events
        (loader_of (start zero component cfg vertex fragment))) <= 1)%nat /\
  (loaded
     (run zero component cfg events
        (loader_of (start zero component cfg vertex fragment))) = true <->
   length
     (scene_children
        (run zero component cfg events
           (loader_of (start zero component cfg vertex fragment)))) = 1%nat) /\
  (loaded
     (run zero component cfg events
        (loader_of (start zero component cfg vertex fragment))) = true ->
   timeouts
     (run zero component cfg events
        (loader_of (start zero component cfg vertex fragment))) = 0%nat).
Proof.
  assert (Hp : polling
                 (run zero component cfg events
                    (loader_of (start zero component cfg vertex fragment)))).
  { apply run_polling. apply _createMesh_polling; reflexivity. }
  destruct Hp as [(Hl & Hc & Ht)|(Hl & Hc & Ht)]; rewrite Hl, Hc.
  - cbn [length]. repeat split; try lia; try discriminate.
  - rewrite Ht. repeat split; lia.
Qed.

(** X16.  As long as a shader has not arrived the callback does nothing
    but schedule itself again: after any number of callbacks the object
    is as it was, with one callback pending; [config.type] and
    [this.uniforms] are not looked at, so nothing is thrown. *)
Theorem createMesh_waits {V : Type} (zero : V) (component : nat -> nat -> V)
    (cfg : config) (this : loader) (n : nat) :
  vertexShader this = None \/ fragmentShader this = None ->
  timeouts this = 1%nat ->
  run zero component cfg (repeat TimeoutFires n) this = this /\
  handle zero component cfg TimeoutFires this = Created this.
Proof.
  intros Hmissing Ht.
  assert (Hstep : handle zero component cfg TimeoutFires this = Created this).
  { cbn [handle]. rewrite Ht. unfold _createMesh.
    cbn [fragmentShader vertexShader this_mesh scene_children loaded
         timeouts].
    destruct this as [vs fs m ch l t]. cbn in Hmissing, Ht. subst t.
    destruct Hmissing as [-> | ->]; [destruct fs|destruct vs]; reflexivity. }
  split; [|exact Hstep].
  induction n as [|n IH]; [reflexivity|].
  cbn [repeat run fold_left]. rewrite Hstep. exact IH.
Qed.

Lemma createMesh_waits_witness :
  run 0 (fun n k => Z.of_nat (3 * n + k))
    (Config (Some "cube"%string) 10 (VObject 0) (VNumber 1) (VNumber 640)
       (VNumber 480) None)
    (repeat TimeoutFires 5)
    (Loader (Some "void main() {}"%string) None None [] false 1) =
  Loader (Some "void main() {}"%string) None None [] false 1 /\
  handle 0 (fun n k => Z.of_nat (3 * n + k))
    (Config (Some "cube"%string) 10 (VObject 0) (VNumber 1) (VNumber 640)
       (VNumber 480) None)
    TimeoutFires
    (Loader (Some "void main() {}"%string) None None [] false 1) =
  Created (Loader (Some "void main() {}"%string) None None [] false 1).
Proof.
  apply (createMesh_waits 0 (fun n k => Z.of_nat (3 * n + k))
           (Config (Some "cube"%string) 10 (VObject 0) (VNumber 1)
              (VNumber 640) (VNumber 480) None)
           (Loader (Some "void main() {}"%string) None None [] false 1) 5).
  - right. reflexivity.
  - reflexivity.
Defined.

(** X17.  A [config.type] that is neither [point] nor [mesh], whatever
    way each shader is given and whatever events follow the constructor's
    call of [_createMesh], in any order, callbacks before the texts
    included.  The call throws exactly when both shaders are there
    already, given by element IDs; otherwise it returns with one callback
    pending.  The object [this] the events leave is not [loaded] and has
    added no mesh.  While a callback is pending, the callback changes
    nothing if a text is missing and throws the [Error] if both are
    there: so the [Error] comes with the first callback that finds both
    texts.  After it no callback is pending, ever. *)
Theorem createMesh_bad_type {V : Type} (zero : V)
    (component : nat -> nat -> V) (cfg : config) (s : string)
    (vertex fragment : option string) (events : list event)
    (this : loader) :
  config_type cfg = Some s -> s <> "point"%string -> s <> "mesh"%string ->
  this = after_events zero component cfg vertex fragment events ->
  start zero component cfg vertex fragment =
    match fragment, vertex with
    | Some _, Some _ =>
        ThrewError Error (Loader vertex fragment None [] false 0)
    | _, _ => Created (Loader vertex fragment None [] false 1)
    end /\
  loaded this = false /\ this_mesh this = None /\
  scene_children this = [] /\
  (timeouts this = 1%nat \/
   timeouts this = 0%nat /\ vertexShader this <> None /\
   fragmentShader this <> None) /\
  (timeouts this = 1%nat ->
   (vertexShader this = None \/ fragmentShader this = None ->
    handle zero component cfg TimeoutFires this = Created this) /\
   (forall v f,
      vertexShader this = Some v -> fragmentShader this = Some f ->
      handle zero component cfg TimeoutFires this =
      ThrewError Error (Loader (Some v) (Some f) None [] false 0))) /\
  (timeouts this = 0%nat ->
   forall later,
     timeouts (run zero component cfg later this) = 0%nat /\
     loaded (run zero component cfg later this) = false /\
     scene_children (run zero component cfg later this) = []).
Proof.
  intros Hs Hp Hm ->.
  pose proof (mesh_type_refused cfg s Hs Hp Hm) as Hty.
  destruct (start_refused zero component cfg vertex fragment Hty)
    as [Hstart Hr0].
  split; [exact Hstart|].
  pose proof (run_refused zero component cfg events Hty _ Hr0) as Hr.
  fold (after_events zero component cfg vertex fragment events) in Hr.
  destruct Hr as (Hl & Hmesh & Hc & Ht).
  split; [exact Hl|]. split; [exact Hmesh|]. split; [exact Hc|].
  split; [exact Ht|]. split.
  - intros H1. split.
    + intros Hmiss. cbn [handle]. rewrite H1.
      rewrite _createMesh_missing by exact Hmiss.
      cbn [vertexShader fragmentShader this_mesh scene_children loaded
           timeouts].
      rewrite <- H1.
      destruct (after_events zero component cfg vertex fragment events).
      reflexivity.
    + intros v f Hv Hf. cbn [handle]. rewrite H1.
      rewrite (_createMesh_refused zero component cfg _ v f Hty)
        by (cbn [vertexShader fragmentShader]; assumption).
      rewrite Hv, Hf, Hmesh, Hc, Hl. reflexivity.
  - intros H0 later.
    destruct (run_idle zero component cfg later _ H0)
      as (I0 & _ & I2 & I3).
    rewrite I0, I2, I3, Hl, Hc. repeat split.
Qed.

Lemma createMesh_bad_type_witness :
  start 0 tags cube_config (Some "v"%string) None =
    match @None string, Some "v"%string with
    | Some _, Some _ =>
        ThrewError Error (Loader (Some "v"%string) None None [] false 0)
    | _, _ => Created (Loader (Some "v"%string) None None [] false 1)
    end /\
  loaded both_texts = false /\ this_mesh both_texts = None /\
  scene_children both_texts = [] /\
  (timeouts both_texts = 1%nat \/
   timeouts both_texts = 0%nat /\ vertexShader both_texts <> None /\
   fragmentShader both_texts <> None) /\
  (timeouts both_texts = 1%nat ->
   (vertexShader both_texts = None \/ fragmentShader both_texts = None ->
    handle 0 tags cube_config TimeoutFires both_texts =
    Created both_texts) /\
   (forall v f,
      vertexShader both_texts = Some v ->
      fragmentShader both_texts = Some f ->
      handle 0 tags cube_config TimeoutFires both_texts =
      ThrewError Error (Loader (Some v) (Some f) None [] false 0))) /\
  (timeouts both_texts = 0%nat ->
   forall later,
     timeouts (run 0 tags cube_config later both_texts) = 0%nat /\
     loaded (run 0 tags cube_config later both_texts) = false /\
     scene_children (run 0 tags cube_config later both_texts) = []).
Proof.
  apply (createMesh_bad_type 0 tags cube_config "cube" (Some "v"%string)
           None [TimeoutFires; FragmentLoaded "f"] both_texts).
  - reflexivity.
  - discriminate.
  - discriminate.
  - reflexivity.
Defined.

(** X18.  A [config.type] the method accepts and uniforms [_material]
    accepts, whatever way each shader is given and whatever events follow
    the constructor's call, in any order, callbacks before the texts
    included.  The call builds the mesh at once when both shaders are
    given by element IDs, and otherwise leaves one callback pending.  The
    object [this] the events leave either has built nothing and has one
    callback pending, or is [loaded] with nothing pending and exactly the
    mesh [m] in the scene: a [THREE.Points] or [THREE.Mesh] by the type,
    made of what [_geometry] returns for [polycount] and of the uniforms
    of [_material].  While nothing is built, the callback changes nothing
    if a text is missing and builds [m] if both are there: so the mesh
    comes with the first callback that finds both texts. *)
Theorem createMesh_completes {V : Type} (zero : V)
    (component : nat -> nat -> V) (cfg : config) (kind : mesh_kind)
    (unis : uniforms_object) (vertex fragment : option string)
    (events : list event) (m : mesh) (this : loader) :
  mesh_type cfg = Some kind ->
  _material (texture cfg) (pointsize cfg) (canvas_width cfg)
    (canvas_height cfg) (uniforms cfg) = Some unis ->
  m = NewMesh kind (_geometry zero component (polycount cfg)) unis ->
  this = after_events zero component cfg vertex fragment events ->
  start zero component cfg vertex fragment =
    match fragment, vertex with
    | Some _, Some _ =>
        Created (Loader vertex fragment (Some m) [m] true 0)
    | _, _ => Created (Loader vertex fragment None [] false 1)
    end /\
  (loaded this = false /\ this_mesh this = None /\
   scene_children this = [] /\ timeouts this = 1%nat \/
   loaded this = true /\ this_mesh this = Some m /\
   scene_children this = [m] /\ timeouts this = 0%nat) /\
  (loaded this = false ->
   (vertexShader this = None \/ fragmentShader this = None ->
    handle zero component cfg TimeoutFires this = Created this) /\
   (forall v f,
      vertexShader this = Some v -> fragmentShader this = Some f ->
      handle zero component cfg TimeoutFires this =
      Created (Loader (Some v) (Some f) (Some m) [m] true 0))).
Proof.
  intros Hty Hmat -> ->.
  destruct (start_building zero component cfg vertex fragment kind unis
              Hty Hmat) as [Hstart Hb0].
  split; [exact Hstart|].
  pose proof (run_building zero component cfg events kind unis Hty Hmat
                _ Hb0) as Hb.
  fold (after_events zero component cfg vertex fragment events) in Hb.
  split; [exact Hb|].
  intros Hl.
  destruct Hb as [(_ & Hm & Hc & Ht)|(Hl' & _)]; [|congruence].
  split.
  - intros Hmiss. cbn [handle]. rewrite Ht.
    rewrite _createMesh_missing by exact Hmiss.
    cbn [vertexShader fragmentShader this_mesh scene_children loaded
         timeouts].
    rewrite <- Ht.
    destruct (after_events zero component cfg vertex fragment events).
    reflexivity.
  - intros v f Hv Hf. cbn [handle]. rewrite Ht.
    rewrite (_createMesh_built zero component cfg _ v f kind unis Hty Hmat)
      by (cbn [vertexShader fragmentShader]; assumption).
    cbn [scene_children timeouts]. rewrite Hc. reflexivity.
Qed.

Lemma createMesh_completes_witness :
  start 0 tags mesh_config None (Some "f"%string) =
    match Some "f"%string, @None string with
    | Some _, Some _ =>
        Created
          (Loader None (Some "f"%string) (Some built_mesh) [built_mesh]
             true 0)
    | _, _ => Created (Loader None (Some "f"%string) None [] false 1)
    end /\
  (loaded both_texts = false /\ this_mesh both_texts = None /\
   scene_children both_texts = [] /\ timeouts both_texts = 1%nat \/
   loaded both_texts = true /\ this_mesh both_texts = Some built_mesh /\
   scene_children both_texts = [built_mesh] /\
   timeouts both_texts = 0%nat) /\
  (loaded both_texts = false ->
   (vertexShader both_texts = None \/ fragmentShader both_texts = None ->
    handle 0 tags mesh_config TimeoutFires both_texts =
    Created both_texts) /\
   (forall v f,
      vertexShader both_texts = Some v ->
      fragmentShader both_texts = Some f ->
      handle 0 tags mesh_config TimeoutFires both_texts =
      Created
        (Loader (Some v) (Some f) (Some built_mesh) [built_mesh] true 0))).
Proof.
  apply (createMesh_completes 0 tags mesh_config Mesh
           (unis0 (VObject 0) (VNumber 640) (VNumber 480) (VNumber 1))
           None (Some "f"%string) [TimeoutFires; VertexLoaded "v"]
           built_mesh both_texts).
  - reflexivity.
  - reflexivity.
  - reflexivity.
  - reflexivity.
Defined.
